(** * Offline-first task sync: local mutation service, sync engine, batch resolver

    A shallow embedding of
      - services/taskService  (class TaskService),
      - services/syncService  (class SyncService),
      - routes/sync.ts        (the POST /batch handler of createSyncRouter),
    followed by the properties of the specification that concern them.

    Conventions of the embedding.
      - A JavaScript [Date] that is valid is its number of milliseconds since
        the epoch, a [Z]; an ISO string written by [toISOString] and read back
        by [new Date] is the same number.  [Invalid Date] only arises from
        [new Date(undefined)] and is [None] in [JsDate].
      - [Partial<Task>] is a record of optional fields; a key that is absent
        (or dropped by JSON) is [None].
      - [uuidv4()] and [new Date()] read an environment: the n-th call returns
        the n-th element of an arbitrary sequence.
      - An asynchronous call that rejects is a [Throw]; the store keeps what
        was written before the throw, there being no transaction. *)

From Stdlib Require Import List ZArith String Bool Lia Permutation Sorted.
Import ListNotations.
Open Scope string_scope.
Open Scope Z_scope.

Set Implicit Arguments.

(* ================================================================== *)
(** ** Data model (the shapes of ../types, as the code uses them)      *)
(* ================================================================== *)

Inductive SyncStatus := pending | synced | error.

Inductive Operation := OpCreate | OpUpdate | OpDelete.

Inductive Status := StSuccess | StConflict | StError.

(** A row of table [tasks]: flags are 0/1 integers, dates ISO strings. *)
Record RawTask := mkRawTask {
  r_id : string;
  r_title : string;
  r_description : string;
  r_completed : Z;
  r_created_at : Z;
  r_updated_at : Z;
  r_is_deleted : Z;
  r_sync_status : SyncStatus;
  r_server_id : option string;
  r_last_synced_at : option Z
}.

Record Task := mkTask {
  t_id : string;
  t_title : string;
  t_description : string;
  t_completed : bool;
  t_created_at : Z;
  t_updated_at : Z;
  t_is_deleted : bool;
  t_sync_status : SyncStatus;
  t_server_id : option string;
  t_last_synced_at : option Z
}.

(** [Partial<Task>]. *)
Record TaskPatch := mkPatch {
  p_id : option string;
  p_title : option string;
  p_description : option string;
  p_completed : option bool;
  p_created_at : option Z;
  p_updated_at : option Z;
  p_is_deleted : option bool;
  p_sync_status : option SyncStatus;
  p_server_id : option string;
  p_last_synced_at : option Z
}.

Definition empty_patch : TaskPatch :=
  mkPatch None None None None None None None None None None.

(** A row of table [sync_queue]; [getSyncQueueItems] turns it into a
    [SyncQueueItem] by parsing [data] and [created_at], which the embedding
    keeps parsed throughout. *)
Record SyncQueueItem := mkItem {
  q_id : string;
  q_task_id : string;
  q_operation : Operation;
  q_data : TaskPatch;
  q_created_at : Z;
  q_retry_count : Z;
  q_error_message : option string
}.

Record ProcessedItem := mkProcessed {
  client_id : string;
  server_id : string;
  status : Status;
  resolved_data : option Task;
  error_text : option string
}.

Record BatchSyncRequest := mkRequest {
  items : list SyncQueueItem;
  client_timestamp : Z
}.

Record BatchSyncResponse := mkResponse {
  processed_items : list ProcessedItem
}.

Record SyncError := mkSyncError {
  se_task_id : string;
  se_operation : Operation;
  se_error : string;
  se_timestamp : Z
}.

Record SyncResult := mkResult {
  success : bool;
  synced_items : nat;
  failed_items : nat;
  errors : list SyncError
}.

(* ================================================================== *)
(** ** The environment and the store                                   *)
(* ================================================================== *)

Record Env := mkEnv {
  clock : nat -> Z;
  uuid : nat -> string
}.

Record World := mkWorld {
  tasks : list RawTask;
  sync_queue : list SyncQueueItem;
  clock_n : nat;
  uuid_n : nat
}.

Definition with_tasks (w : World) (ts : list RawTask) : World :=
  mkWorld ts (sync_queue w) (clock_n w) (uuid_n w).

Definition with_queue (w : World) (q : list SyncQueueItem) : World :=
  mkWorld (tasks w) q (clock_n w) (uuid_n w).

(* ================================================================== *)
(** ** A state-and-exception monad                                     *)
(* ================================================================== *)

Inductive res (A : Type) : Type :=
| Ok (a : A)
| Throw (message : string).
Arguments Ok {A} a.
Arguments Throw {A} message.

Definition M (S A : Type) : Type := S -> S * res A.

Definition ret {S A} (a : A) : M S A := fun s => (s, Ok a).

Definition throw {S A} (message : string) : M S A := fun s => (s, Throw message).

Definition bind {S A B} (m : M S A) (k : A -> M S B) : M S B :=
  fun s => match m s with
           | (s', Ok a) => k a s'
           | (s', Throw e) => (s', Throw e)
           end.

Definition try_catch {S A} (body : M S A) (handler : string -> M S A) : M S A :=
  fun s => match body s with
           | (s', Ok a) => (s', Ok a)
           | (s', Throw e) => handler e s'
           end.

Definition gets {S A} (f : S -> A) : M S A := fun s => (s, Ok (f s)).

Definition modify {S} (f : S -> S) : M S unit := fun s => (f s, Ok tt).

Declare Scope monad_scope.
Delimit Scope monad_scope with monad.
Notation "x <- m ;; k" := (bind m (fun x => k))
  (at level 61, m at next level, right associativity) : monad_scope.
Notation "m ;;; k" := (bind m (fun _ => k))
  (at level 61, right associativity) : monad_scope.
Open Scope monad_scope.

(* ================================================================== *)
(** ** JavaScript odds and ends                                        *)
(* ================================================================== *)

(** [new Date(v)] for a payload field: a missing field gives Invalid Date. *)
Definition JsDate := option Z.

Definition new_Date_of (v : option Z) : JsDate := v.

(** [a > b] on dates compares their time values; NaN compares false. *)
Definition date_gt (a b : JsDate) : bool :=
  match a, b with
  | Some x, Some y => y <? x
  | _, _ => false
  end.

Definition bool_to_int (b : bool) : Z := if b then 1 else 0.

(** [!!n]. *)
Definition truthy (n : Z) : bool := negb (n =? 0).

(** [s || ''] for an optional string. *)
Definition or_empty (s : option string) : string :=
  match s with Some x => x | None => EmptyString end.

(** [new Date()] and [uuidv4()]. *)
Definition new_Date (env : Env) : M World Z :=
  fun w => (mkWorld (tasks w) (sync_queue w) (S (clock_n w)) (uuid_n w),
            Ok (clock env (clock_n w))).

Definition uuidv4 (env : Env) : M World string :=
  fun w => (mkWorld (tasks w) (sync_queue w) (clock_n w) (S (uuid_n w)),
            Ok (uuid env (uuid_n w))).

(* ================================================================== *)
(** ** The statements sent to the database                             *)
(* ================================================================== *)

(** Modelled from the spec: the Database class (db/database) and its schema
    are not among the sources.  The spec has the record store "keyed by id"
    and an Outbox entry id "unique per entry", and the Task type has a
    [title: string]; so both tables are lists of rows in insertion order
    with [id] as primary key, and [tasks.title] is NOT NULL.  A statement
    that breaks a constraint rejects and leaves the table as it was. *)
Definition db_SELECT_task_by_id (id : string) (w : World) : option RawTask :=
  find (fun r => r_id r =? id)%string (tasks w).

(** [SELECT * FROM tasks WHERE id = ? AND is_deleted = 0]. *)
Definition db_SELECT_active_task (id : string) (w : World) : option RawTask :=
  find (fun r => (r_id r =? id)%string && (r_is_deleted r =? 0)) (tasks w).

Definition db_INSERT_task (row : RawTask) : M World unit :=
  fun w =>
    if existsb (fun r => r_id r =? r_id row)%string (tasks w)
    then (w, Throw "SQLITE_CONSTRAINT: UNIQUE constraint failed: tasks.id")
    else (with_tasks w (tasks w ++ [row])%list, Ok tt).

Definition db_INSERT_sync_queue (row : SyncQueueItem) : M World unit :=
  fun w =>
    if existsb (fun r => q_id r =? q_id row)%string (sync_queue w)
    then (w, Throw "SQLITE_CONSTRAINT: UNIQUE constraint failed: sync_queue.id")
    else (with_queue w (sync_queue w ++ [row])%list, Ok tt).

Definition opt_or {A} (o : option A) (d : A) : A :=
  match o with Some v => v | None => d end.

Definition opt_or_keep {A} (o : option A) (d : option A) : option A :=
  match o with Some v => Some v | None => d end.

(** The SET clause built from [Object.keys]: one assignment per key present;
    booleans are bound as 1/0 and dates as ISO strings. *)
Definition apply_set (p : TaskPatch) (r : RawTask) : RawTask :=
  mkRawTask
    (opt_or (p_id p) (r_id r))
    (opt_or (p_title p) (r_title r))
    (opt_or (p_description p) (r_description r))
    (opt_or (option_map bool_to_int (p_completed p)) (r_completed r))
    (opt_or (p_created_at p) (r_created_at r))
    (opt_or (p_updated_at p) (r_updated_at r))
    (opt_or (option_map bool_to_int (p_is_deleted p)) (r_is_deleted r))
    (opt_or (p_sync_status p) (r_sync_status r))
    (opt_or_keep (p_server_id p) (r_server_id r))
    (opt_or_keep (p_last_synced_at p) (r_last_synced_at r)).

Definition update_where_id (id : string) (f : RawTask -> RawTask)
  (ts : list RawTask) : list RawTask :=
  map (fun r => if (r_id r =? id)%string then f r else r) ts.

(** [UPDATE tasks SET <keys of p> WHERE id = ?]. *)
Definition db_UPDATE_task (id : string) (p : TaskPatch) : M World unit :=
  fun w =>
    let clash :=
      match p_id p with
      | Some id' =>
          negb (id' =? id)%string
          && existsb (fun r => r_id r =? id)%string (tasks w)
          && existsb (fun r => r_id r =? id')%string (tasks w)
      | None => false
      end in
    if clash
    then (w, Throw "SQLITE_CONSTRAINT: UNIQUE constraint failed: tasks.id")
    else (with_tasks w (update_where_id id (apply_set p) (tasks w)), Ok tt).

(* ================================================================== *)
(** ** class TaskService                                               *)
(* ================================================================== *)

Definition mapRowToTask (row : option RawTask) : option Task :=
  match row with
  | None => None
  | Some r =>
      Some (mkTask (r_id r) (r_title r) (r_description r)
                   (truthy (r_completed r))
                   (r_created_at r) (r_updated_at r)
                   (truthy (r_is_deleted r))
                   (r_sync_status r) (r_server_id r) (r_last_synced_at r))
  end.

Definition getTask (id : string) : M World (option Task) :=
  gets (fun w => mapRowToTask (db_SELECT_active_task id w)).

Definition getTaskById (id : string) : M World (option Task) :=
  gets (fun w => mapRowToTask (db_SELECT_task_by_id id w)).

Definition addToSyncQueue (env : Env) (taskId : string) (operation : Operation)
  (data : TaskPatch) : M World unit :=
  id <- uuidv4 env ;;
  now <- new_Date env ;;
  db_INSERT_sync_queue (mkItem id taskId operation data now 0 None).

Definition createTask (env : Env) (taskData : TaskPatch) : M World (option Task) :=
  now <- new_Date env ;;
  id <- uuidv4 env ;;
  match p_title taskData with
  | None => throw "SQLITE_CONSTRAINT: NOT NULL constraint failed: tasks.title"
  | Some title =>
      let description := or_empty (p_description taskData) in
      db_INSERT_task
        (mkRawTask id title description (bool_to_int false) now now
                   (bool_to_int false) pending None None) ;;;
      addToSyncQueue env id OpCreate
        (mkPatch None (Some title) (Some description)
                 None None None None None None None) ;;;
      getTaskById id
  end.

(** [{ ...updates, updated_at: now, sync_status: 'pending' }]. *)
Definition stamp (updates : TaskPatch) (now : Z) : TaskPatch :=
  mkPatch (p_id updates) (p_title updates) (p_description updates)
          (p_completed updates) (p_created_at updates) (Some now)
          (p_is_deleted updates) (Some pending) (p_server_id updates)
          (p_last_synced_at updates).

Definition updateTask (env : Env) (id : string) (updates : TaskPatch)
  : M World (option Task) :=
  task <- getTaskById id ;;
  match task with
  | None => ret None
  | Some _ =>
      now <- new_Date env ;;
      db_UPDATE_task id (stamp updates now) ;;;
      addToSyncQueue env id OpUpdate updates ;;;
      getTask id
  end.

(** [SET is_deleted = 1, updated_at = ?, sync_status = 'pending']. *)
Definition soft_delete_patch (now : Z) : TaskPatch :=
  mkPatch None None None None None (Some now) (Some true) (Some pending) None None.

Definition deleteTask (env : Env) (id : string) : M World bool :=
  task <- getTaskById id ;;
  match task with
  | None => ret false
  | Some _ =>
      now <- new_Date env ;;
      db_UPDATE_task id (soft_delete_patch now) ;;;
      addToSyncQueue env id OpDelete empty_patch ;;;
      ret true
  end.

(** The service as the batch handler sees it. *)
Record TaskServiceOps := mkService {
  svc_getTaskById : string -> M World (option Task);
  svc_createTask : TaskPatch -> M World (option Task);
  svc_updateTask : string -> TaskPatch -> M World (option Task);
  svc_deleteTask : string -> M World bool
}.

Definition taskService (env : Env) : TaskServiceOps :=
  mkService getTaskById (createTask env) (updateTask env) (deleteTask env).

(* ================================================================== *)
(** ** routes/sync.ts: the POST /batch handler                         *)
(* ================================================================== *)

(** The handler's state: the store and the local [processed_items]. *)
Definition HState : Type := World * list ProcessedItem.

Definition lift {A} (m : M World A) : M HState A :=
  fun s => match m (fst s) with (w', r) => ((w', snd s), r) end.

Definition push (p : ProcessedItem) : M HState unit :=
  modify (fun s => (fst s, (snd s ++ [p])%list)).

(** Reading [newTask.id] when [createTask] handed back null. *)
Definition TypeError_null_id : string :=
  "Cannot read properties of null (reading 'id')".

Definition push_created (task_id : string) (newTask : option Task) : M HState unit :=
  match newTask with
  | None => throw TypeError_null_id
  | Some t => push (mkProcessed task_id (t_id t) StSuccess (Some t) None)
  end.

(** The body of the [try] block, for one item. *)
Definition batch_try (svc : TaskServiceOps) (item : SyncQueueItem) : M HState unit :=
  let operation := q_operation item in
  let task_id := q_task_id item in
  let data := q_data item in
  localTask <- lift (svc_getTaskById svc task_id) ;;
  match operation with
  | OpCreate =>
      newTask <- lift (svc_createTask svc data) ;;
      push_created task_id newTask
  | OpUpdate =>
      match localTask with
      | None =>
          newTask <- lift (svc_createTask svc data) ;;
          push_created task_id newTask
      | Some lt =>
          let clientUpdatedAt := new_Date_of (p_updated_at data) in
          let serverUpdatedAt := new_Date_of (Some (t_updated_at lt)) in
          if date_gt clientUpdatedAt serverUpdatedAt
          then
            updatedTask <- lift (svc_updateTask svc task_id data) ;;
            push (mkProcessed task_id task_id StSuccess updatedTask None)
          else
            push (mkProcessed task_id task_id StConflict (Some lt) None)
      end
  | OpDelete =>
      match localTask with
      | Some _ => lift (svc_deleteTask svc task_id) ;;; ret tt
      | None => ret tt
      end ;;;
      push (mkProcessed task_id task_id StSuccess None None)
  end.

Definition error_outcome (item : SyncQueueItem) (message : string) : ProcessedItem :=
  mkProcessed (q_task_id item) EmptyString StError None (Some message).

(** One turn of [for (const item of items)]. *)
Definition batch_item (svc : TaskServiceOps) (item : SyncQueueItem) : M HState unit :=
  try_catch (batch_try svc item) (fun message => push (error_outcome item message)).

Fixpoint batch_loop (svc : TaskServiceOps) (its : list SyncQueueItem) (s : HState)
  : HState :=
  match its with
  | [] => s
  | item :: rest => batch_loop svc rest (fst (batch_item svc item s))
  end.

Definition batch_handler (svc : TaskServiceOps) (req : BatchSyncRequest) (w : World)
  : World * BatchSyncResponse :=
  let s := batch_loop svc (items req) (w, []) in
  (fst s, mkResponse (snd s)).

(* ================================================================== *)
(** ** class SyncService                                               *)
(* ================================================================== *)

(** [ORDER BY created_at ASC], rows of equal date in table order.  The column
    holds the strings of [toISOString], which for the years 0000 to 9999
    compare as the dates they stand for. *)
Fixpoint insert_by_created_at (x : SyncQueueItem) (l : list SyncQueueItem)
  : list SyncQueueItem :=
  match l with
  | [] => [x]
  | y :: l' => if q_created_at x <? q_created_at y
               then x :: l
               else y :: insert_by_created_at x l'
  end.

Definition order_by_created_at (l : list SyncQueueItem) : list SyncQueueItem :=
  fold_left (fun acc x => insert_by_created_at x acc) l [].

(** The order of [ORDER BY created_at ASC]. *)
Definition created_le (a b : SyncQueueItem) : Prop :=
  q_created_at a <= q_created_at b.

Definition getSyncQueueItems (w : World) : list SyncQueueItem :=
  order_by_created_at (sync_queue w).

(** [for (i = 0; i < items.length; i += batchSize) batches.push(items.slice(i, i + batchSize))];
    the fuel is [items.length], which suffices exactly when [batchSize] is
    positive (with 0 the source loop does not end). *)
Fixpoint slices (fuel : nat) (batchSize : nat) (l : list SyncQueueItem)
  : list (list SyncQueueItem) :=
  match fuel, l with
  | _, [] => []
  | O, _ => []
  | S fuel', _ => firstn batchSize l :: slices fuel' batchSize (skipn batchSize l)
  end.

Definition make_batches (batchSize : nat) (l : list SyncQueueItem) :=
  slices (List.length l) batchSize l.

(** [SET retry_count = ?, error_message = ?] on one row. *)
Definition with_retry (r : SyncQueueItem) (count : Z) (message : string)
  : SyncQueueItem :=
  mkItem (q_id r) (q_task_id r) (q_operation r) (q_data r) (q_created_at r)
         count (Some message).

(** [UPDATE sync_queue SET retry_count = ?, error_message = ? WHERE id = ?]. *)
Definition set_retry (qid : string) (count : Z) (message : string)
  (q : list SyncQueueItem) : list SyncQueueItem :=
  map (fun r => if (q_id r =? qid)%string then with_retry r count message else r) q.

Definition set_sync_status (s : SyncStatus) (r : RawTask) : RawTask :=
  mkRawTask (r_id r) (r_title r) (r_description r) (r_completed r)
            (r_created_at r) (r_updated_at r) (r_is_deleted r) s
            (r_server_id r) (r_last_synced_at r).

Definition maxRetries : Z := 3.

Definition handleSyncError (item : SyncQueueItem) (message : string) (w : World)
  : World :=
  let newRetryCount := q_retry_count item + 1 in
  if maxRetries <=? newRetryCount
  then
    let w1 := with_tasks w
                (update_where_id (q_task_id item) (set_sync_status error) (tasks w)) in
    with_queue w1
      (set_retry (q_id item) newRetryCount ("Permanent failure: " ++ message)
                 (sync_queue w1))
  else
    with_queue w (set_retry (q_id item) newRetryCount message (sync_queue w)).

(** [if (serverData.server_id)]: a non-empty string. *)
Definition truthy_string (s : option string) : option string :=
  match s with
  | Some EmptyString => None
  | other => other
  end.

(** The [updateFields] object of [updateSyncStatus]. *)
Definition updateFields (now : Z) (serverData : option Task) : TaskPatch :=
  match serverData with
  | None =>
      mkPatch None None None None None None None (Some synced) None (Some now)
  | Some d =>
      mkPatch None (Some (t_title d)) (Some (t_description d))
              (Some (t_completed d)) None (Some (t_updated_at d)) None
              (Some synced) (truthy_string (t_server_id d)) (Some now)
  end.

Definition tick_clock (w : World) : World :=
  mkWorld (tasks w) (sync_queue w) (S (clock_n w)) (uuid_n w).

Definition updateSyncStatus (env : Env) (queueItemId : string) (st : SyncStatus)
  (serverData : option Task) (w : World) : World :=
  match st with
  | synced =>
      match find (fun r => q_id r =? queueItemId)%string (sync_queue w) with
      | None => w
      | Some item =>
          let taskId := q_task_id item in
          let now := clock env (clock_n w) in
          let w1 := tick_clock w in
          let w2 := with_tasks w1
                      (update_where_id taskId (apply_set (updateFields now serverData))
                                       (tasks w1)) in
          with_queue w2
            (filter (fun r => negb (q_id r =? queueItemId)%string) (sync_queue w2))
      end
  | _ => w
  end.

(** What a sync run carries along: the local store, the remote side reached
    through the transport, the [results] object, and the batches handed to
    [axios.post] so far, in call order. *)
Record SyncState (R : Type) := mkSyncState {
  local : World;
  remote : R;
  results : SyncResult;
  sent : list (list SyncQueueItem)
}.
Arguments mkSyncState {R} _ _ _ _.

Definition is_synced_status (st : Status) : bool :=
  match st with
  | StSuccess | StConflict => true
  | StError => false
  end.

(** [processed.error || 'Unknown error']. *)
Definition or_unknown (s : option string) : string :=
  match s with
  | None | Some EmptyString => "Unknown error"
  | Some m => m
  end.

Definition TypeError_undefined_id : string :=
  "Cannot read properties of undefined (reading 'id')".

Definition TypeError_undefined_retry_count : string :=
  "Cannot read properties of undefined (reading 'retry_count')".

Definition incr_synced (r : SyncResult) : SyncResult :=
  mkResult (success r) (S (synced_items r)) (failed_items r) (errors r).

Definition incr_failed (r : SyncResult) : SyncResult :=
  mkResult (success r) (synced_items r) (S (failed_items r)) (errors r).

Definition push_error (r : SyncResult) (e : SyncError) : SyncResult :=
  mkResult (success r) (synced_items r) (failed_items r) (errors r ++ [e])%list.

Section SyncService.

Variable R : Type.

(** [axios.post(apiUrl + '/batch', request)]: [inl message] is a rejected
    promise, [inr response] is [response.data]. *)
Variable transport : R -> BatchSyncRequest -> R * (string + BatchSyncResponse).

Variable env : Env.

(** [parseInt(process.env.SYNC_BATCH_SIZE || '50', 10)]. *)
Variable batchSize : nat.

Definition processBatch (batch : list SyncQueueItem) (s : SyncState R)
  : SyncState R * (string + BatchSyncResponse) :=
  let now := clock env (clock_n (local s)) in
  let w1 := tick_clock (local s) in
  match transport (remote s) (mkRequest batch now) with
  | (r', answer) =>
      (mkSyncState w1 r' (results s) (sent s ++ [batch])%list, answer)
  end.

(** [for (const processed of batchResponse.processed_items)]; the third
    component is the message of an exception that left the loop. *)
Fixpoint sync_outcomes (batch : list SyncQueueItem) (ps : list ProcessedItem)
  (w : World) (res : SyncResult) : World * SyncResult * option string :=
  match ps with
  | [] => (w, res, None)
  | processed :: rest =>
      let originalItem :=
        find (fun item => q_task_id item =? client_id processed)%string batch in
      if is_synced_status (status processed)
      then
        let res1 := incr_synced res in
        match originalItem with
        | None => (w, res1, Some TypeError_undefined_id)
        | Some it =>
            sync_outcomes batch rest
              (updateSyncStatus env (q_id it) synced (resolved_data processed) w)
              res1
        end
      else
        let res1 := incr_failed res in
        match originalItem with
        | None => (w, res1, Some TypeError_undefined_retry_count)
        | Some it =>
            let w1 := handleSyncError it (or_empty (error_text processed)) w in
            let now := clock env (clock_n w1) in
            sync_outcomes batch rest (tick_clock w1)
              (push_error res1
                 (mkSyncError (client_id processed) (q_operation it)
                              (or_unknown (error_text processed)) now))
        end
  end.

(** The loop of the [catch] block. *)
Fixpoint sync_failed (message : string) (its : list SyncQueueItem)
  (w : World) (res : SyncResult) : World * SyncResult :=
  match its with
  | [] => (w, res)
  | item :: rest =>
      let w1 := handleSyncError item message w in
      let now := clock env (clock_n w1) in
      sync_failed message rest (tick_clock w1)
        (push_error res
           (mkSyncError (q_task_id item) (q_operation item) message now))
  end.

(** One turn of [for (const batch of batches)]. *)
Definition sync_batch (s : SyncState R) (batch : list SyncQueueItem) : SyncState R :=
  match processBatch batch s with
  | (s1, answer) =>
      let tried :=
        match answer with
        | inl message => (local s1, results s1, Some message)
        | inr response =>
            sync_outcomes batch (processed_items response) (local s1) (results s1)
        end in
      match tried with
      | (w2, res2, None) => mkSyncState w2 (remote s1) res2 (sent s1)
      | (w2, res2, Some message) =>
          let res3 := mkResult false (synced_items res2)
                               (failed_items res2 + List.length batch)%nat
                               (errors res2) in
          match sync_failed message batch w2 res3 with
          | (w4, res4) => mkSyncState w4 (remote s1) res4 (sent s1)
          end
      end
  end.

Definition sync_batches (batches : list (list SyncQueueItem)) (s : SyncState R)
  : SyncState R :=
  fold_left sync_batch batches s.

Definition sync (w : World) (r : R) : SyncState R :=
  let its := getSyncQueueItems w in
  match its with
  | [] => mkSyncState w r (mkResult true 0 0 []) []
  | _ =>
      let batches := make_batches batchSize its in
      let s := sync_batches batches (mkSyncState w r (mkResult true 0 0 []) []) in
      let res := results s in
      mkSyncState (local s) (remote s)
        (mkResult (failed_items res =? 0)%nat (synced_items res)
                  (failed_items res) (errors res))
        (sent s)
  end.

End SyncService.

(** The remote side as the repository has it: the batch handler over a
    store of its own, and a transport that always delivers. *)
Definition remote_transport (renv : Env) (r : World) (req : BatchSyncRequest)
  : World * (string + BatchSyncResponse) :=
  match batch_handler (taskService renv) req r with
  | (r', response) => (r', inr response)
  end.

(* ================================================================== *)
(** ** The rest of TaskService, and the routers                        *)
(* ================================================================== *)

(** [mapRowToTask(row)!] on a row that is there. *)
Definition task_of_row (r : RawTask) : Task :=
  mkTask (r_id r) (r_title r) (r_description r) (truthy (r_completed r))
         (r_created_at r) (r_updated_at r) (truthy (r_is_deleted r))
         (r_sync_status r) (r_server_id r) (r_last_synced_at r).

(** [SELECT * FROM tasks WHERE is_deleted = 0]. *)
Definition getAllTasks : M World (list Task) :=
  gets (fun w => map task_of_row (filter (fun r => r_is_deleted r =? 0) (tasks w))).

Definition needs_sync (r : RawTask) : bool :=
  match r_sync_status r with
  | pending | error => true
  | synced => false
  end.

(** [SELECT * FROM tasks WHERE sync_status = 'pending' OR sync_status = 'error']. *)
Definition getTasksNeedingSync : M World (list Task) :=
  gets (fun w => map task_of_row (filter needs_sync (tasks w))).

(** What a route hands to [res]: the status code and the JSON body. *)
Inductive Body :=
| JsonTasks (ts : list Task)
| JsonTask (t : option Task)
| JsonSyncResult (r : SyncResult)
| JsonError (text : string)
| NoBody.

Record Response := mkResponseOf {
  code : nat;
  body : Body
}.

Definition respond {S} (c : nat) (b : Body) : M S Response := ret (mkResponseOf c b).

(** [!title] for the title of a request body. *)
Definition falsy_string (s : option string) : bool :=
  match s with
  | None | Some EmptyString => true
  | Some _ => false
  end.

(** routes/tasks: [router.get('/')]. *)
Definition route_get_tasks : M World Response :=
  try_catch
    (ts <- getAllTasks ;; respond 200 (JsonTasks ts))
    (fun _ => respond 500 (JsonError "Failed to fetch tasks")).

(** routes/tasks: [router.get('/:id')]. *)
Definition route_get_task (id : string) : M World Response :=
  try_catch
    (task <- getTask id ;;
     match task with
     | None => respond 404 (JsonError "Task not found")
     | Some t => respond 200 (JsonTask (Some t))
     end)
    (fun _ => respond 500 (JsonError "Failed to fetch task")).

(** routes/tasks: [router.post('/')]; of the body only [title] and
    [description] are read. *)
Definition route_post_task (env : Env) (reqBody : TaskPatch) : M World Response :=
  try_catch
    (let title := p_title reqBody in
     let description := p_description reqBody in
     if falsy_string title
     then respond 400 (JsonError "Title is required")
     else
       newTask <- createTask env
                    (mkPatch None title description
                             None None None None None None None) ;;
       respond 201 (JsonTask newTask))
    (fun _ => respond 500 (JsonError "Failed to create task")).

(** routes/tasks: [router.put('/:id')]. *)
Definition route_put_task (env : Env) (id : string) (reqBody : TaskPatch)
  : M World Response :=
  try_catch
    (updatedTask <- updateTask env id reqBody ;;
     match updatedTask with
     | None => respond 404 (JsonError "Task not found")
     | Some t => respond 200 (JsonTask (Some t))
     end)
    (fun _ => respond 500 (JsonError "Failed to update task")).

(** routes/tasks: [router.delete('/:id')]. *)
Definition route_delete_task (env : Env) (id : string) : M World Response :=
  try_catch
    (ok <- deleteTask env id ;;
     if ok : bool
     then respond 204 NoBody
     else respond 404 (JsonError "Task not found"))
    (fun _ => respond 500 (JsonError "Failed to delete task")).

Section SyncRouter.

Variable R : Type.

Variable transport : R -> BatchSyncRequest -> R * (string + BatchSyncResponse).

(** [axios.get(apiUrl + '/health', { timeout: 5000 })]: [true] when the
    request resolved in time. *)
Variable probe : R -> R * bool.

Variable env : Env.

Variable batchSize : nat.

(** [try { await axios.get(...); return true } catch { return false }]. *)
Definition checkConnectivity (r : R) : R * bool :=
  match probe r with
  | (r', true) => (r', true)
  | (r', false) => (r', false)
  end.

(** routes/sync.ts: [router.post('/sync')]; the result carries the local
    store, the remote side and the batches handed to the transport.  The run
    itself does not throw in this embedding, so the [catch] of the route is
    never entered. *)
Definition route_post_sync (w : World) (r : R)
  : (World * R * list (list SyncQueueItem)) * Response :=
  match checkConnectivity r with
  | (r1, false) =>
      ((w, r1, []),
       mkResponseOf 503
         (JsonError "Service unavailable. No internet connection."))
  | (r1, true) =>
      let s := sync transport env batchSize w r1 in
      ((local s, remote s, sent s), mkResponseOf 200 (JsonSyncResult (results s)))
  end.

End SyncRouter.

(** What an Outbox entry says, apart from its retry bookkeeping. *)
Definition payload (e : SyncQueueItem)
  : string * string * Operation * TaskPatch * Z :=
  (q_id e, q_task_id e, q_operation e, q_data e, q_created_at e).

(** The fields of a record that a sync run has no statement for. *)
Definition record_identity (r : RawTask) : string * Z * Z :=
  (r_id r, r_created_at r, r_is_deleted r).



(** What [updateSyncStatus] writes into a record from a snapshot. *)
Definition adopt (now : Z) (d : Task) (r : RawTask) : RawTask :=
  mkRawTask (r_id r) (t_title d) (t_description d) (bool_to_int (t_completed d))
            (r_created_at r) (t_updated_at d) (r_is_deleted r) synced
            (opt_or_keep (truthy_string (t_server_id d)) (r_server_id r))
            (Some now).

(** Every record with id [id] has [sync_status = synced]. *)
Definition record_synced (id : string) (w : World) : Prop :=
  forall t, In t (tasks w) -> r_id t = id -> r_sync_status t = synced.

(* ================================================================== *)
(** ** Concrete stores and runs used further down                      *)
(* ================================================================== *)

Module Scenario.

(** The client: clock readings 1000, 1001, ...; ids c1, c2, ... *)
Definition client_env : Env :=
  mkEnv (fun n => 1000 + Z.of_nat n)
        (fun n => nth n ["c1"; "c2"; "c3"; "c4"; "c5"; "c6"] "c7").

(** The server: clock readings 5000, 5001, ...; ids s1, s2, ... *)
Definition server_env : Env :=
  mkEnv (fun n => 5000 + Z.of_nat n)
        (fun n => nth n ["s1"; "s2"; "s3"; "s4"; "s5"; "s6"] "s7").

(** An id generator that repeats itself. *)
Definition stuck_env : Env :=
  mkEnv (fun n => 5000 + Z.of_nat n) (fun _ => "s1").

Definition empty_world : World := mkWorld [] [] 0 0.

Definition title_only (t : string) : TaskPatch :=
  mkPatch None (Some t) None None None None None None None None.

Definition title_at (t : string) (at_ms : Z) : TaskPatch :=
  mkPatch None (Some t) None None None (Some at_ms) None None None None.

(** A record last written at 1000. *)
Definition row_t1 (deleted : Z) : RawTask :=
  mkRawTask "t1" "A" EmptyString 0 900 1000 deleted synced None None.

Definition world_live : World := mkWorld [row_t1 0] [] 0 0.

Definition world_soft_deleted : World := mkWorld [row_t1 1] [] 0 0.

Definition update_entry (data : TaskPatch) : SyncQueueItem :=
  mkItem "q1" "t1" OpUpdate data 1500 0 None.

Definition delete_entry : SyncQueueItem :=
  mkItem "q2" "t1" OpDelete empty_patch 1600 0 None.

(** Scenario 2 of the spec: create, update, then one sync run. *)
Definition after_create : World :=
  fst (createTask client_env (title_only "A") empty_world).

Definition after_update : World :=
  fst (updateTask client_env "c1" (title_only "B") after_create).

Definition scenario2 (batchSize : nat) : SyncState World :=
  sync (remote_transport server_env) client_env batchSize after_update empty_world.

(** A remote side that answers a batch with a fixed list of outcomes. *)
Definition canned (answer : list ProcessedItem) (r : unit) (req : BatchSyncRequest)
  : unit * (string + BatchSyncResponse) :=
  (r, inr (mkResponse answer)).

(** A network that is down. *)
Definition unreachable (r : unit) (req : BatchSyncRequest)
  : unit * (string + BatchSyncResponse) :=
  (r, inl "Network Error").

(** A network that is down for the batches whose number is in [down],
    counting from 0 in the remote state, and otherwise reaches the batch
    handler of the repository. *)
Definition flaky (down : list nat) (r : nat * World) (req : BatchSyncRequest)
  : (nat * World) * (string + BatchSyncResponse) :=
  if existsb (Nat.eqb (fst r)) down
  then ((S (fst r), snd r), inl "Network Error")
  else match remote_transport server_env (snd r) req with
       | (r', answer) => ((S (fst r), r'), answer)
       end.

(** Two queued mutations of one record: an update, then a delete. *)
Definition two_entries : World :=
  mkWorld [mkRawTask "t1" "B" EmptyString 0 900 1500 1 pending None None]
          [update_entry (title_only "B"); delete_entry] 0 0.

Definition failed_then_ok : list ProcessedItem :=
  [ mkProcessed "t1" EmptyString StError None (Some "SQLITE_BUSY");
    mkProcessed "t1" "t1" StSuccess None None ].

(** Three queued entries of three records, for runs in batches of two. *)
Definition entry_a : SyncQueueItem :=
  mkItem "qa" "a" OpCreate (title_only "A") 100 0 None.

Definition entry_b : SyncQueueItem :=
  mkItem "qb" "b" OpCreate (title_only "B") 200 0 None.

Definition entry_c : SyncQueueItem :=
  mkItem "qc" "c" OpCreate (title_only "C") 300 0 None.

Definition three_entries : World :=
  mkWorld [mkRawTask "a" "A" EmptyString 0 100 100 0 pending None None;
           mkRawTask "b" "B" EmptyString 0 200 200 0 pending None None;
           mkRawTask "c" "C" EmptyString 0 300 300 0 pending None None]
          [entry_c; entry_a; entry_b] 0 0.





(** A remote store that holds record c1, last written at 5000. *)
Definition server_has_c1 : World :=
  mkWorld [mkRawTask "c1" "A" EmptyString 0 1000 5000 0 pending None None] [] 0 0.

(** A remote store whose only record has the id that [stuck_env] keeps
    handing out, so that every create on it hits the primary key. *)
Definition server_has_s1 : World :=
  mkWorld [mkRawTask "s1" "Z" EmptyString 0 4000 4000 0 pending None None] [] 0 0.

(** Two queued updates of one record, and an answer that rejects both. *)
Definition second_update_entry : SyncQueueItem :=
  mkItem "q2" "t1" OpUpdate (title_only "C") 1600 0 None.

Definition two_updates : World :=
  mkWorld [mkRawTask "t1" "C" EmptyString 0 900 1600 0 pending None None]
          [update_entry (title_only "B"); second_update_entry] 0 0.

Definition both_failed : list ProcessedItem :=
  [ mkProcessed "t1" EmptyString StError None (Some "SQLITE_BUSY");
    mkProcessed "t1" EmptyString StError None (Some "SQLITE_BUSY") ].

(** Three sync runs in a row, each starting from the stores the one before
    left. *)
Definition three_runs (R : Type)
  (transport : R -> BatchSyncRequest -> R * (string + BatchSyncResponse))
  (env : Env) (batchSize : nat) (w : World) (r : R) : list (SyncState R) :=
  let s1 := sync transport env batchSize w r in
  let s2 := sync transport env batchSize (local s1) (remote s1) in
  let s3 := sync transport env batchSize (local s2) (remote s2) in
  [s1; s2; s3].

End Scenario.

(** More stores, for the properties of the code beyond the claims. *)
Module Fixture.

(** A store whose Outbox already holds the id that [Scenario.stuck_env]
    hands out. *)
Definition queue_has_s1 : World :=
  mkWorld [] [mkItem "s1" "t0" OpDelete empty_patch 10 0 None] 0 0.

(** Two records, the second soft-deleted, and nothing queued. *)
Definition two_records : World :=
  mkWorld [mkRawTask "t1" "A" EmptyString 0 900 1000 0 synced None None;
           mkRawTask "t2" "B" "b" 1 800 1100 1 synced None None] [] 0 0.

(** A create entry as a client would transmit it. *)
Definition create_item : SyncQueueItem :=
  mkItem "q7" "c9" OpCreate (Scenario.title_only "A") 1400 0 None.

(** An update entry for a record the server has never seen. *)
Definition update_unknown_item : SyncQueueItem :=
  mkItem "q8" "c9" OpUpdate (Scenario.title_only "B") 1450 0 None.

(** The same for an edit that only ticks the record off: the payload has no
    title. *)
Definition update_without_title : SyncQueueItem :=
  mkItem "q9" "c9" OpUpdate
         (mkPatch None None None (Some true) None None None None None None)
         1460 0 None.

(** A remote side that answers every item with success and no snapshot. *)
Definition all_success (r : unit) (req : BatchSyncRequest)
  : unit * (string + BatchSyncResponse) :=
  (r, inr (mkResponse
             (map (fun it => mkProcessed (q_task_id it) (q_task_id it)
                                         StSuccess None None)
                  (items req)))).

(** A health endpoint that does not answer, and one that does. *)
Definition offline (r : unit) : unit * bool := (r, false).

Definition online (r : unit) : unit * bool := (r, true).

(** Request bodies for PUT /tasks/t1 that name an id: the record's own, and
    another one. *)
Definition body_with_own_id : TaskPatch :=
  mkPatch (Some "t1") (Some "B") None None None None None None None None.

Definition body_with_other_id : TaskPatch :=
  mkPatch (Some "t5") (Some "B") None None None None None None None None.

(** A server snapshot of record t1 with other contents. *)
Definition snapshot_t1 : Task :=
  mkTask "t1" "S" "from the server" true 900 7000 false pending None None.

End Fixture.

(* ================================================================== *)
(** ** Facts about the store                                           *)
(* ================================================================== *)

(** Unfolding the monad's operations. *)
Ltac run_monad :=
  unfold bind, ret, throw, gets, modify, try_catch, lift, push; simpl.


(** The ids of a concrete list of rows are pairwise distinct. *)
Ltac no_dup_ids :=
  simpl; repeat constructor; simpl; intuition discriminate.

Lemma find_update_where_id (id : string) (f : RawTask -> RawTask) (ts : list RawTask) :
  (forall r, r_id (f r) = r_id r) ->
  find (fun r => r_id r =? id)%string (update_where_id id f ts)
  = option_map f (find (fun r => r_id r =? id)%string ts).
Proof.
  intros Hid. induction ts as [|a ts IH]; simpl; [reflexivity|].
  destruct (r_id a =? id)%string eqn:E; simpl.
  - rewrite Hid, E. reflexivity.
  - rewrite E. exact IH.
Qed.

(** The soft delete of a record that exists, when the id drawn for the
    Outbox entry is not taken. *)
Lemma deleteTask_found (env : Env) (id : string) (w : World) (r : RawTask) :
  db_SELECT_task_by_id id w = Some r ->
  existsb (fun e => q_id e =? uuid env (uuid_n w))%string (sync_queue w) = false ->
  deleteTask env id w
  = (mkWorld (update_where_id id (apply_set (soft_delete_patch (clock env (clock_n w))))
                              (tasks w))
             (sync_queue w
              ++ [mkItem (uuid env (uuid_n w)) id OpDelete empty_patch
                         (clock env (S (clock_n w))) 0 None])%list
             (S (S (clock_n w))) (S (uuid_n w)),
     Ok true).
Proof.
  intros Hfind Hfresh.
  unfold deleteTask, getTaskById, addToSyncQueue, new_Date, uuidv4,
    db_UPDATE_task, db_INSERT_sync_queue.
  run_monad. rewrite Hfind. simpl. rewrite Hfresh. reflexivity.
Qed.

(* ================================================================== *)
(** ** The remote resolver, one item at a time                         *)
(* ================================================================== *)

(** C9. The resolver's delete is idempotent: a delete entry is answered
    with status success whether or not the target record exists; when it
    exists (soft-deleted already or not) it is soft-deleted afterwards, and
    when it does not the store is left as it was.  The one assumption is the
    one the spec makes of the id generator: the id drawn for the Outbox
    entry that [deleteTask] appends is not in use. *)
Theorem delete_is_idempotent (env : Env) (item : SyncQueueItem) (w : World)
  (acc : list ProcessedItem) :
  q_operation item = OpDelete ->
  (db_SELECT_task_by_id (q_task_id item) w <> None ->
   existsb (fun e => q_id e =? uuid env (uuid_n w))%string (sync_queue w) = false) ->
  exists w',
    batch_item (taskService env) item (w, acc)
    = ((w', (acc ++ [mkProcessed (q_task_id item) (q_task_id item)
                                 StSuccess None None])%list), Ok tt)
    /\ (db_SELECT_task_by_id (q_task_id item) w = None -> w' = w)
    /\ (forall r, db_SELECT_task_by_id (q_task_id item) w = Some r ->
         exists r', db_SELECT_task_by_id (q_task_id item) w' = Some r'
                    /\ r_is_deleted r' = 1
                    /\ r_id r' = r_id r /\ r_title r' = r_title r
                    /\ r_description r' = r_description r).
Proof.
  intros Hop Hfresh.
  unfold batch_item, batch_try. rewrite Hop.
  destruct (db_SELECT_task_by_id (q_task_id item) w) as [r|] eqn:Hfind.
  - pose proof (deleteTask_found env (q_task_id item) w Hfind
                  (Hfresh ltac:(discriminate))) as Hdel.
    eexists. split; [|split].
    + unfold taskService, getTaskById. run_monad.
      rewrite Hfind. simpl. rewrite Hdel. simpl. reflexivity.
    + discriminate.
    + intros r0 Hr0. injection Hr0 as <-.
      unfold db_SELECT_task_by_id in *. simpl.
      rewrite find_update_where_id by reflexivity.
      rewrite Hfind. simpl. eexists. split; [reflexivity|].
      simpl. auto.
  - exists w. split; [|split].
    + unfold taskService, getTaskById. run_monad.
      rewrite Hfind. simpl. destruct w; reflexivity.
    + reflexivity.
    + discriminate.
Qed.

(** The record is there and soft-deleted already; the delete succeeds again. *)
Lemma delete_is_idempotent_witness :
  exists w' r',
    batch_item (taskService Scenario.server_env) Scenario.delete_entry
               (Scenario.world_soft_deleted, [])
    = ((w', [mkProcessed "t1" "t1" StSuccess None None]), Ok tt)
    /\ db_SELECT_task_by_id "t1" w' = Some r'
    /\ r_is_deleted r' = 1 /\ r_title r' = "A".
Proof.
  destruct (@delete_is_idempotent Scenario.server_env Scenario.delete_entry
              Scenario.world_soft_deleted [] eq_refl (fun _ => eq_refl))
    as (w' & Hrun & _ & Hdel).
  destruct (Hdel (Scenario.row_t1 1) eq_refl) as (r' & Hr' & Hd & _ & Ht & _).
  exists w', r'. repeat split; assumption.
Defined.

(** The update of a record that exists remotely, server wins: nothing is
    written and the answer carries the record as it was read. *)
Lemma update_server_wins (env : Env) (item : SyncQueueItem) (w : World)
  (acc : list ProcessedItem) (lt : Task) :
  q_operation item = OpUpdate ->
  mapRowToTask (db_SELECT_task_by_id (q_task_id item) w) = Some lt ->
  date_gt (new_Date_of (p_updated_at (q_data item))) (Some (t_updated_at lt)) = false ->
  batch_item (taskService env) item (w, acc)
  = ((w, (acc ++ [mkProcessed (q_task_id item) (q_task_id item)
                              StConflict (Some lt) None])%list), Ok tt).
Proof.
  intros Hop Hfind Hcmp.
  unfold batch_item, batch_try. rewrite Hop.
  unfold taskService, getTaskById. run_monad.
  rewrite Hfind. unfold new_Date_of in *. rewrite Hcmp. reflexivity.
Qed.

(** The update of a record that exists remotely, client wins: the answer is
    success with whatever [updateTask] returned. *)
Lemma update_client_wins (env : Env) (item : SyncQueueItem) (w w' : World)
  (acc : list ProcessedItem) (lt : Task) (updatedTask : option Task) :
  q_operation item = OpUpdate ->
  mapRowToTask (db_SELECT_task_by_id (q_task_id item) w) = Some lt ->
  date_gt (new_Date_of (p_updated_at (q_data item))) (Some (t_updated_at lt)) = true ->
  updateTask env (q_task_id item) (q_data item) w = (w', Ok updatedTask) ->
  batch_item (taskService env) item (w, acc)
  = ((w', (acc ++ [mkProcessed (q_task_id item) (q_task_id item)
                               StSuccess updatedTask None])%list), Ok tt).
Proof.
  intros Hop Hfind Hcmp Hupd.
  unfold batch_item, batch_try. rewrite Hop.
  unfold taskService, getTaskById, bind, gets, try_catch, lift, push, modify.
  cbn [fst snd svc_getTaskById svc_updateTask].
  rewrite Hfind. unfold new_Date_of in *. rewrite Hcmp.
  cbn [fst snd]. rewrite Hupd. reflexivity.
Qed.

(** What [updateTask] appends to the Outbox when the record exists and the
    call returns. *)
Lemma updateTask_enqueues (env : Env) (id : string) (updates : TaskPatch)
  (w w' : World) (result : option Task) :
  db_SELECT_task_by_id id w <> None ->
  updateTask env id updates w = (w', Ok result) ->
  sync_queue w'
  = (sync_queue w
     ++ [mkItem (uuid env (uuid_n w)) id OpUpdate updates
                (clock env (S (clock_n w))) 0 None])%list.
Proof.
  intros Hfind.
  unfold updateTask, getTaskById, getTask, addToSyncQueue, new_Date, uuidv4,
    db_UPDATE_task, db_INSERT_sync_queue.
  run_monad.
  destruct (db_SELECT_task_by_id id w) as [r|]; [clear Hfind|congruence].
  simpl.
  match goal with |- context [if ?c then _ else _] => destruct c end;
    [discriminate|].
  simpl.
  match goal with |- context [if ?c then _ else _] => destruct c end;
    [discriminate|].
  simpl. intros H. injection H as <- _. reflexivity.
Qed.

Lemma updateTask_not_found (env : Env) (id : string) (updates : TaskPatch)
  (w : World) :
  db_SELECT_task_by_id id w = None ->
  updateTask env id updates w = (w, Ok None).
Proof.
  intros Hfind. unfold updateTask, getTaskById. run_monad.
  rewrite Hfind. reflexivity.
Qed.

Lemma find_active_none (id : string) (f : RawTask -> RawTask) (ts : list RawTask) :
  (forall x, In x ts -> r_id x <> id) ->
  find (fun x => (r_id x =? id)%string && (r_is_deleted x =? 0))
       (update_where_id id f ts) = None.
Proof.
  induction ts as [|a ts IH]; simpl; intros Hno; [reflexivity|].
  assert (Ha : (r_id a =? id)%string = false).
  { apply String.eqb_neq, Hno. left. reflexivity. }
  rewrite Ha. simpl. rewrite Ha. simpl. apply IH.
  intros x Hx. apply Hno. right. exact Hx.
Qed.

(** Reading back, as [getTask] does, the record that was just updated. *)
Lemma find_active_update (id : string) (f : RawTask -> RawTask) (ts : list RawTask)
  (r : RawTask) :
  NoDup (map r_id ts) ->
  (forall x, r_id (f x) = r_id x) ->
  find (fun x => r_id x =? id)%string ts = Some r ->
  find (fun x => (r_id x =? id)%string && (r_is_deleted x =? 0))
       (update_where_id id f ts)
  = if r_is_deleted (f r) =? 0 then Some (f r) else None.
Proof.
  intros Hnd Hf. induction ts as [|a ts IH]; simpl; intros Hfind; [discriminate|].
  inversion Hnd as [|? ? Hnotin Hnd']; subst.
  destruct (r_id a =? id)%string eqn:E.
  - injection Hfind as <-. simpl. rewrite Hf, E. simpl.
    destruct (r_is_deleted (f a) =? 0); [reflexivity|].
    apply find_active_none. intros x Hx Heq. apply Hnotin.
    apply String.eqb_eq in E. rewrite E, <- Heq. apply in_map, Hx.
  - simpl. rewrite E. simpl. apply IH; assumption.
Qed.

(** What [updateTask] does with a record that exists, when the fields leave
    the id alone and the id drawn for the Outbox entry is not taken: the
    fields are merged over the row, [updated_at] and [sync_status] are
    stamped, the delta is enqueued, and the record comes back unless it is
    soft-deleted after the merge. *)
Lemma updateTask_found (env : Env) (id : string) (updates : TaskPatch)
  (w : World) (r : RawTask) :
  NoDup (map r_id (tasks w)) ->
  db_SELECT_task_by_id id w = Some r ->
  p_id updates = None ->
  existsb (fun e => q_id e =? uuid env (uuid_n w))%string (sync_queue w) = false ->
  let merged := apply_set (stamp updates (clock env (clock_n w))) r in
  updateTask env id updates w
  = (mkWorld (update_where_id id (apply_set (stamp updates (clock env (clock_n w))))
                              (tasks w))
             (sync_queue w
              ++ [mkItem (uuid env (uuid_n w)) id OpUpdate updates
                         (clock env (S (clock_n w))) 0 None])%list
             (S (S (clock_n w))) (S (uuid_n w)),
     Ok (if r_is_deleted merged =? 0 then mapRowToTask (Some merged) else None)).
Proof.
  intros Hnd Hfind Hpid Hfresh. cbv zeta.
  assert (Hf : forall x, r_id (apply_set (stamp updates (clock env (clock_n w))) x)
                         = r_id x)
    by (intros x; simpl; rewrite Hpid; reflexivity).
  pose proof (@find_active_update id _ (tasks w) r Hnd Hf Hfind) as Hread.
  destruct (r_is_deleted (apply_set (stamp updates (clock env (clock_n w))) r) =? 0);
    unfold updateTask, getTaskById, getTask, addToSyncQueue, new_Date, uuidv4,
      db_UPDATE_task, db_INSERT_sync_queue, db_SELECT_active_task;
    run_monad; rewrite Hfind; simpl; rewrite Hpid; simpl; rewrite Hfresh; simpl;
    rewrite Hread; simpl; rewrite ?Hpid; reflexivity.
Qed.

(** The update of a record that exists remotely, client wins, and the
    target is not soft-deleted after the merge: the answer is success with
    the updated record. *)
Lemma update_client_wins_live (env : Env) (item : SyncQueueItem) (w : World)
  (acc : list ProcessedItem) (r : RawTask) :
  q_operation item = OpUpdate ->
  NoDup (map r_id (tasks w)) ->
  db_SELECT_task_by_id (q_task_id item) w = Some r ->
  date_gt (new_Date_of (p_updated_at (q_data item))) (Some (r_updated_at r)) = true ->
  p_id (q_data item) = None ->
  existsb (fun e => q_id e =? uuid env (uuid_n w))%string (sync_queue w) = false ->
  let merged := apply_set (stamp (q_data item) (clock env (clock_n w))) r in
  r_is_deleted merged = 0 ->
  exists w',
    batch_item (taskService env) item (w, acc)
    = ((w', (acc ++ [mkProcessed (q_task_id item) (q_task_id item) StSuccess
                                 (mapRowToTask (Some merged)) None])%list), Ok tt)
    /\ db_SELECT_task_by_id (q_task_id item) w' = Some merged.
Proof.
  intros Hop Hnd Hfind Hcmp Hpid Hfresh merged Hlive.
  pose proof (@updateTask_found env (q_task_id item) (q_data item) w r
                Hnd Hfind Hpid Hfresh) as Hupd.
  cbv zeta in Hupd. fold merged in Hupd. rewrite Hlive in Hupd.
  change (0 =? 0) with true in Hupd. cbv iota in Hupd.
  eexists. split.
  - eapply update_client_wins;
      [exact Hop|rewrite Hfind; reflexivity|exact Hcmp|exact Hupd].
  - unfold db_SELECT_task_by_id in *. simpl.
    rewrite find_update_where_id, Hfind; [reflexivity|].
    intros x. simpl. rewrite Hpid. reflexivity.
Qed.

(** C1, at the input where the code departs from it.  The remote record t1
    is soft-deleted and was last written at 1000; the incoming update
    carries [updated_at = 2000].  The client wins and the update is written,
    but [updateTask] reads the record back through [getTask], which skips
    soft-deleted rows: the answer is success with no snapshot, where the
    handler's [updatedTask!] takes one for granted. *)
Theorem update_of_soft_deleted_record_has_no_snapshot :
  let item := Scenario.update_entry (Scenario.title_at "B" 2000) in
  let out := batch_handler (taskService Scenario.server_env)
                           (mkRequest [item] 0) Scenario.world_soft_deleted in
  option_map t_updated_at
    (mapRowToTask (db_SELECT_task_by_id "t1" Scenario.world_soft_deleted)) = Some 1000
  /\ processed_items (snd out) = [mkProcessed "t1" "t1" StSuccess None None]
  /\ option_map r_title (db_SELECT_task_by_id "t1" (fst out)) = Some "B".
Proof. vm_compute. repeat split. Qed.

(** The same update of the same record when it is not soft-deleted: success
    with the updated snapshot. *)
Lemma update_of_live_record_has_snapshot :
  let item := Scenario.update_entry (Scenario.title_at "B" 2000) in
  let out := batch_handler (taskService Scenario.server_env)
                           (mkRequest [item] 0) Scenario.world_live in
  map status (processed_items (snd out)) = [StSuccess]
  /\ map (fun p => option_map t_title (resolved_data p)) (processed_items (snd out))
     = [Some "B"]
  /\ map (fun p => resolved_data p) (processed_items (snd out))
     = [mapRowToTask (db_SELECT_task_by_id "t1" (fst out))].
Proof. vm_compute. repeat split. Qed.

(** C10, at the input where the code departs from it.  The record t1 exists
    and is soft-deleted.  [updateTask] finds it through [getTaskById], writes
    the new title, stamps it pending and appends the Outbox entry with the
    caller's delta, and then returns null, which is also what it returns for
    an id that is not in the store. *)
Theorem updateTask_of_soft_deleted_record_returns_null :
  let run := updateTask Scenario.client_env "t1" (Scenario.title_only "B")
                        Scenario.world_soft_deleted in
  db_SELECT_task_by_id "t1" Scenario.world_soft_deleted <> None
  /\ snd run = Ok None
  /\ db_SELECT_task_by_id "t1" (fst run)
     = Some (mkRawTask "t1" "B" EmptyString 0 900 1000 1 pending None None)
  /\ sync_queue (fst run)
     = [mkItem "c1" "t1" OpUpdate (Scenario.title_only "B") 1001 0 None]
  /\ updateTask Scenario.client_env "t9" (Scenario.title_only "B")
                Scenario.world_soft_deleted
     = (Scenario.world_soft_deleted, Ok None).
Proof. vm_compute. repeat split. discriminate. Qed.

(** C3 as amended.  The Outbox entry of kind update that [updateTask]
    appends carries the caller's fields and nothing else; when those fields
    have no [updated_at], the resolver answers that entry, for every remote
    store in which the target exists, with conflict and the server's record,
    and writes nothing. *)
Theorem update_entry_without_updated_at_never_wins (env : Env) (id : string)
  (updates : TaskPatch) (w w' : World) (result : option Task) :
  db_SELECT_task_by_id id w <> None ->
  updateTask env id updates w = (w', Ok result) ->
  exists e,
    sync_queue w' = (sync_queue w ++ [e])%list
    /\ q_task_id e = id /\ q_operation e = OpUpdate /\ q_data e = updates
    /\ q_retry_count e = 0
    /\ (p_updated_at updates = None ->
        forall (renv : Env) (rw : World) (acc : list ProcessedItem) (lt : Task),
          mapRowToTask (db_SELECT_task_by_id id rw) = Some lt ->
          batch_item (taskService renv) e (rw, acc)
          = ((rw, (acc ++ [mkProcessed id id StConflict (Some lt) None])%list), Ok tt)).
Proof.
  intros Hfind Hrun.
  eexists. split; [exact (updateTask_enqueues env id updates w Hfind Hrun)|].
  simpl. repeat split.
  intros Hnone renv rw acc lt Hlt.
  apply (@update_server_wins renv
           (mkItem (uuid env (uuid_n w)) id OpUpdate updates
                   (clock env (S (clock_n w))) 0 None) rw acc lt);
    simpl; auto.
  rewrite Hnone. reflexivity.
Qed.

Lemma update_entry_without_updated_at_never_wins_witness :
  exists e,
    sync_queue Scenario.after_update = (sync_queue Scenario.after_create ++ [e])%list
    /\ q_data e = Scenario.title_only "B"
    /\ batch_item (taskService Scenario.server_env) e (Scenario.server_has_c1, [])
       = ((Scenario.server_has_c1,
           [mkProcessed "c1" "c1" StConflict
              (Some (mkTask "c1" "A" EmptyString false 1000 5000 false
                            pending None None)) None]), Ok tt).
Proof.
  destruct (@update_entry_without_updated_at_never_wins Scenario.client_env "c1"
              (Scenario.title_only "B") Scenario.after_create Scenario.after_update
              (Some (mkTask "c1" "B" EmptyString false 1000 1002 false
                            pending None None)))
    as (e & Hq & _ & _ & Hdata & _ & Hconf).
  - vm_compute. discriminate.
  - vm_compute. reflexivity.
  - exists e. split; [exact Hq|]. split; [exact Hdata|].
    apply (Hconf eq_refl Scenario.server_env Scenario.server_has_c1 []).
    reflexivity.
Defined.

(** C3 as stated fails: the caller of [updateTask] may supply [updated_at]
    among the fields, the entry then carries it, and the resolver lets the
    client win against a record last written before that date. *)
Lemma update_entry_may_carry_updated_at :
  let w' := fst (updateTask Scenario.client_env "t1" (Scenario.title_at "B" 2000)
                            Scenario.world_live) in
  exists e,
    sync_queue w' = [e]
    /\ q_operation e = OpUpdate
    /\ p_updated_at (q_data e) = Some 2000
    /\ mapRowToTask (db_SELECT_task_by_id (q_task_id e) Scenario.world_live) <> None
    /\ map status
         (processed_items
            (snd (batch_handler (taskService Scenario.server_env)
                                (mkRequest [e] 0) Scenario.world_live)))
       = [StSuccess].
Proof.
  vm_compute. eexists. split; [reflexivity|].
  repeat split. discriminate.
Qed.

(* ================================================================== *)
(** ** The batch handler, for any task service                         *)
(* ================================================================== *)







(* ================================================================== *)
(** ** Loading the Outbox and cutting it into batches                  *)
(* ================================================================== *)

Lemma insert_by_created_at_perm (x : SyncQueueItem) (l : list SyncQueueItem) :
  Permutation (insert_by_created_at x l) (x :: l).
Proof.
  induction l as [|y l IH]; simpl; [apply Permutation_refl|].
  destruct (q_created_at x <? q_created_at y).
  - apply Permutation_refl.
  - eapply perm_trans; [apply perm_skip, IH|apply perm_swap].
Qed.

Lemma insert_by_created_at_sorted (x : SyncQueueItem) (l : list SyncQueueItem) :
  StronglySorted created_le l -> StronglySorted created_le (insert_by_created_at x l).
Proof.
  induction 1 as [|y l Hs IH Hall]; simpl.
  - constructor; constructor.
  - destruct (q_created_at x <? q_created_at y) eqn:E.
    + apply Z.ltb_lt in E. constructor.
      * constructor; assumption.
      * constructor; [unfold created_le; lia|].
        eapply Forall_impl; [|exact Hall].
        unfold created_le. intros; lia.
    + apply Z.ltb_ge in E. constructor; [exact IH|].
      rewrite Forall_forall in *. intros z Hz.
      apply (Permutation_in _ (insert_by_created_at_perm x l)) in Hz.
      destruct Hz as [<-|Hz]; [exact E|auto].
Qed.

Lemma order_by_created_at_acc (l acc : list SyncQueueItem) :
  Permutation (fold_left (fun a x => insert_by_created_at x a) l acc) (l ++ acc)%list
  /\ (StronglySorted created_le acc ->
      StronglySorted created_le (fold_left (fun a x => insert_by_created_at x a) l acc)).
Proof.
  revert acc. induction l as [|x l IH]; intros acc; simpl.
  - split; [apply Permutation_refl|auto].
  - destruct (IH (insert_by_created_at x acc)) as [Hp Hs]. split.
    + eapply perm_trans; [exact Hp|].
      eapply perm_trans;
        [apply Permutation_app_head, insert_by_created_at_perm|].
      apply Permutation_sym, Permutation_middle.
    + intros Hacc. apply Hs, insert_by_created_at_sorted, Hacc.
Qed.

Lemma getSyncQueueItems_perm (w : World) :
  Permutation (getSyncQueueItems w) (sync_queue w).
Proof.
  unfold getSyncQueueItems, order_by_created_at.
  destruct (order_by_created_at_acc (sync_queue w) []) as [Hp _].
  rewrite app_nil_r in Hp. exact Hp.
Qed.


Lemma getSyncQueueItems_In (w : World) (e : SyncQueueItem) :
  In e (getSyncQueueItems w) <-> In e (sync_queue w).
Proof.
  split; apply Permutation_in;
    [|apply Permutation_sym]; apply getSyncQueueItems_perm.
Qed.

(** With a positive batch size the batches, put end to end, are the list
    that was cut, and none of them is empty. *)
Lemma slices_concat (batchSize : nat) (fuel : nat) (l : list SyncQueueItem) :
  (0 < batchSize)%nat -> (List.length l <= fuel)%nat ->
  List.concat (slices fuel batchSize l) = l
  /\ Forall (fun b => b <> []) (slices fuel batchSize l).
Proof.
  intros Hpos. revert l. induction fuel as [|fuel IH]; intros l Hlen.
  - destruct l; [simpl; auto|simpl in Hlen; lia].
  - destruct l as [|x l]; [simpl; auto|].
    change (slices (S fuel) batchSize (x :: l))
      with (firstn batchSize (x :: l)
            :: slices fuel batchSize (skipn batchSize (x :: l))).
    destruct (IH (skipn batchSize (x :: l))) as [Hc Hne].
    { rewrite length_skipn. cbn [List.length] in *. lia. }
    split.
    + simpl List.concat. rewrite Hc. apply firstn_skipn.
    + constructor; [|exact Hne].
      destruct batchSize; [lia|]. simpl. discriminate.
Qed.

Lemma make_batches_concat (batchSize : nat) (l : list SyncQueueItem) :
  (0 < batchSize)%nat -> List.concat (make_batches batchSize l) = l.
Proof. intros H. apply slices_concat; auto. Qed.

Lemma make_batches_nonempty (batchSize : nat) (l b : list SyncQueueItem) :
  (0 < batchSize)%nat -> In b (make_batches batchSize l) -> b <> [].
Proof.
  intros H Hin.
  destruct (slices_concat (fuel := List.length l) l H (le_n _)) as [_ Hall].
  rewrite Forall_forall in Hall. apply Hall, Hin.
Qed.


(* ================================================================== *)
(** ** The sync run: what is transmitted, and in which order           *)
(* ================================================================== *)

Section SyncRunFacts.

Variable R : Type.
Variable transport : R -> BatchSyncRequest -> R * (string + BatchSyncResponse).
Variable env : Env.

Lemma sync_batch_sent (s : SyncState R) (batch : list SyncQueueItem) :
  sent (sync_batch transport env s batch) = (sent s ++ [batch])%list.
Proof.
  unfold sync_batch, processBatch.
  destruct (transport (remote s) _) as [r' [message|response]]; simpl.
  - destruct (sync_failed _ _ _ _ _); reflexivity.
  - destruct (sync_outcomes _ _ _ _ _) as [[w2 res2] [message|]]; simpl;
      [destruct (sync_failed _ _ _ _ _)|]; reflexivity.
Qed.

Lemma sync_batches_sent (batches : list (list SyncQueueItem)) (s : SyncState R) :
  sent (sync_batches transport env batches s) = (sent s ++ batches)%list.
Proof.
  unfold sync_batches. revert s.
  induction batches as [|b batches IH]; intros s; simpl.
  - rewrite app_nil_r. reflexivity.
  - rewrite IH, sync_batch_sent, <- app_assoc. reflexivity.
Qed.

(** Every batch is handed to the transport, whatever the transport
    answers, one after the other and in the order they were cut. *)
Lemma sync_sent (batchSize : nat) (w : World) (r : R) :
  sent (sync transport env batchSize w r)
  = make_batches batchSize (getSyncQueueItems w).
Proof.
  unfold sync. destruct (getSyncQueueItems w) as [|x l] eqn:E.
  - reflexivity.
  - cbn [sent]. rewrite sync_batches_sent. reflexivity.
Qed.


End SyncRunFacts.


(* ================================================================== *)
(** ** The retry handler                                               *)
(* ================================================================== *)

Lemma set_retry_ids (qid : string) (n : Z) (message : string)
  (q : list SyncQueueItem) :
  map q_id (set_retry qid n message q) = map q_id q.
Proof.
  unfold set_retry. rewrite map_map. apply map_ext.
  intros r. destruct (q_id r =? qid)%string; reflexivity.
Qed.

Lemma set_retry_hit (n : Z) (message : string) (q : list SyncQueueItem)
  (e : SyncQueueItem) :
  In e q -> In (with_retry e n message) (set_retry (q_id e) n message q).
Proof.
  intros Hin. unfold set_retry.
  apply in_map_iff. exists e. rewrite String.eqb_refl. auto.
Qed.

Lemma set_retry_miss (qid : string) (n : Z) (message : string)
  (q : list SyncQueueItem) (e : SyncQueueItem) :
  q_id e <> qid -> In e q -> In e (set_retry qid n message q).
Proof.
  intros Hne Hin. unfold set_retry.
  apply in_map_iff. exists e. apply String.eqb_neq in Hne. rewrite Hne. auto.
Qed.

Lemma unique_by_id (q : list SyncQueueItem) (x y : SyncQueueItem) :
  NoDup (map q_id q) -> In x q -> In y q -> q_id x = q_id y -> x = y.
Proof.
  induction q as [|a q IH]; simpl; intros Hnd Hx Hy Hid; [contradiction|].
  inversion Hnd as [|? ? Hnotin Hnd']; subst.
  destruct Hx as [->|Hx], Hy as [->|Hy]; auto.
  - exfalso. apply Hnotin. rewrite Hid. apply in_map, Hy.
  - exfalso. apply Hnotin. rewrite <- Hid. apply in_map, Hx.
Qed.

(** With entry ids unique, the rows of [set_retry] that bear the id are the
    updated row and no other. *)
Lemma set_retry_unique (n : Z) (message : string) (q : list SyncQueueItem)
  (e e' : SyncQueueItem) :
  NoDup (map q_id q) -> In e q ->
  In e' (set_retry (q_id e) n message q) -> q_id e' = q_id e ->
  e' = with_retry e n message.
Proof.
  intros Hnd Hin Hin' Hid. unfold set_retry in Hin'.
  apply in_map_iff in Hin'. destruct Hin' as (x & Hx & Hxin).
  assert (Hxid : q_id x = q_id e).
  { destruct (q_id x =? q_id e)%string eqn:E.
    - apply String.eqb_eq, E.
    - subst e'. exact Hid. }
  assert (x = e).
  { apply (unique_by_id q); assumption. }
  subst x. rewrite String.eqb_refl in Hx. symmetry. exact Hx.
Qed.

Lemma handleSyncError_queue (item : SyncQueueItem) (message : string) (w : World) :
  sync_queue (handleSyncError item message w)
  = set_retry (q_id item) (q_retry_count item + 1)
      (if maxRetries <=? q_retry_count item + 1
       then "Permanent failure: " ++ message else message)
      (sync_queue w).
Proof.
  unfold handleSyncError.
  destruct (maxRetries <=? q_retry_count item + 1); reflexivity.
Qed.

Lemma handleSyncError_tasks (item : SyncQueueItem) (message : string) (w : World) :
  tasks (handleSyncError item message w)
  = if maxRetries <=? q_retry_count item + 1
    then update_where_id (q_task_id item) (set_sync_status error) (tasks w)
    else tasks w.
Proof.
  unfold handleSyncError.
  destruct (maxRetries <=? q_retry_count item + 1); reflexivity.
Qed.

Lemma handleSyncError_ids (item : SyncQueueItem) (message : string) (w : World) :
  map q_id (sync_queue (handleSyncError item message w)) = map q_id (sync_queue w).
Proof. rewrite handleSyncError_queue. apply set_retry_ids. Qed.

Lemma update_where_id_ids (id : string) (f : RawTask -> RawTask) (ts : list RawTask) :
  (forall r, r_id (f r) = r_id r) ->
  map r_id (update_where_id id f ts) = map r_id ts.
Proof.
  intros Hf. unfold update_where_id. rewrite map_map. apply map_ext.
  intros r. destruct (r_id r =? id)%string; auto.
Qed.

Lemma update_where_id_hit (id : string) (f : RawTask -> RawTask) (ts : list RawTask)
  (t : RawTask) :
  (forall r, r_id (f r) = r_id r) ->
  In t (update_where_id id f ts) -> r_id t = id ->
  exists r, In r ts /\ t = f r.
Proof.
  intros Hf Hin Hid. unfold update_where_id in Hin.
  apply in_map_iff in Hin. destruct Hin as (x & Hx & Hxin).
  destruct (r_id x =? id)%string eqn:E.
  - exists x. auto.
  - subst t. apply String.eqb_neq in E. contradiction.
Qed.

(** The retry handler called three times on an entry enqueued with
    [retry_count = 0], each time with the entry as it is in the Outbox by
    then: after the third call the entry is still in the Outbox with
    [retry_count = 3] and the error message of a permanent failure, no entry
    has left the Outbox, and the record of the entry has
    [sync_status = error]. *)
Lemma handleSyncError_three_times (w0 : World) (e0 e1 e2 : SyncQueueItem)
  (m1 m2 m3 : string) :
  NoDup (map q_id (sync_queue w0)) ->
  In e0 (getSyncQueueItems w0) ->
  q_retry_count e0 = 0 ->
  let w1 := handleSyncError e0 m1 w0 in
  In e1 (getSyncQueueItems w1) -> q_id e1 = q_id e0 ->
  let w2 := handleSyncError e1 m2 w1 in
  In e2 (getSyncQueueItems w2) -> q_id e2 = q_id e0 ->
  let w3 := handleSyncError e2 m3 w2 in
  In (with_retry e0 3 ("Permanent failure: " ++ m3)) (sync_queue w3)
  /\ map q_id (sync_queue w3) = map q_id (sync_queue w0)
  /\ (forall t, In t (tasks w3) -> r_id t = q_task_id e0 -> r_sync_status t = error)
  /\ map r_id (tasks w3) = map r_id (tasks w0).
Proof.
  intros Hnd H0 Hcount w1 H1 Hid1 w2 H2 Hid2 w3.
  apply getSyncQueueItems_In in H0, H1, H2.
  assert (He1 : e1 = with_retry e0 1 m1).
  { unfold w1 in H1. rewrite handleSyncError_queue, Hcount in H1.
    simpl in H1. eapply set_retry_unique; eassumption. }
  assert (Hnd1 : NoDup (map q_id (sync_queue w1))).
  { unfold w1. rewrite handleSyncError_ids. exact Hnd. }
  assert (He2 : e2 = with_retry e0 2 m2).
  { unfold w2 in H2. rewrite handleSyncError_queue in H2.
    rewrite <- Hid1 in Hid2.
    eapply set_retry_unique in H2; try eassumption.
    rewrite H2, He1. reflexivity. }
  assert (Hq3 : sync_queue w3
                = set_retry (q_id e0) 3 ("Permanent failure: " ++ m3) (sync_queue w2)).
  { unfold w3. rewrite handleSyncError_queue, He2. reflexivity. }
  assert (Ht3 : tasks w3
                = update_where_id (q_task_id e0) (set_sync_status error) (tasks w0)).
  { unfold w3, w2, w1. rewrite !handleSyncError_tasks, He2, He1, Hcount.
    reflexivity. }
  split; [|split; [|split]].
  - rewrite Hq3. rewrite <- Hid2.
    replace (with_retry e0 3 ("Permanent failure: " ++ m3))
      with (with_retry e2 3 ("Permanent failure: " ++ m3))
      by (rewrite He2; reflexivity).
    apply set_retry_hit, H2.
  - unfold w3, w2, w1. rewrite !handleSyncError_ids. reflexivity.
  - intros t Hin Hid. rewrite Ht3 in Hin.
    apply update_where_id_hit in Hin; [|reflexivity|exact Hid].
    destruct Hin as (r & _ & ->).
    reflexivity.
  - rewrite Ht3. apply update_where_id_ids. reflexivity.
Qed.

Lemma handleSyncError_three_times_on_two_entries :
  let e0 := Scenario.update_entry (Scenario.title_only "B") in
  let w3 :=
    handleSyncError (with_retry e0 2 "second") "third"
      (handleSyncError (with_retry e0 1 "first") "second"
         (handleSyncError e0 "first" Scenario.two_entries)) in
  In (with_retry e0 3 "Permanent failure: third") (sync_queue w3)
  /\ map q_id (sync_queue w3) = map q_id (sync_queue Scenario.two_entries)
  /\ (forall t, In t (tasks w3) -> r_id t = q_task_id e0 -> r_sync_status t = error)
  /\ map r_id (tasks w3) = map r_id (tasks Scenario.two_entries).
Proof.
  intros e0.
  apply (@handleSyncError_three_times Scenario.two_entries e0
           (with_retry e0 1 "first") (with_retry e0 2 "second")
           "first" "second" "third").
  - no_dup_ids.
  - vm_compute. left. reflexivity.
  - reflexivity.
  - vm_compute. left. reflexivity.
  - reflexivity.
  - vm_compute. left. reflexivity.
  - reflexivity.
Defined.

(* ================================================================== *)
(** ** The sync run: which Outbox rows a batch can touch               *)
(* ================================================================== *)

Lemma ids_apart (l1 l2 : list SyncQueueItem) (x y : SyncQueueItem) :
  NoDup (map q_id (l1 ++ l2)) -> In x l1 -> In y l2 -> q_id x <> q_id y.
Proof.
  induction l1 as [|a l1 IH]; simpl; intros Hnd Hx Hy; [contradiction|].
  inversion Hnd as [|? ? Hnotin Hnd']; subst.
  destruct Hx as [->|Hx]; [|apply IH; assumption].
  intros Heq. apply Hnotin. rewrite Heq.
  apply in_map, in_or_app. right. exact Hy.
Qed.

Lemma handleSyncError_keeps (item e : SyncQueueItem) (message : string) (w : World) :
  q_id e <> q_id item ->
  In e (sync_queue w) -> In e (sync_queue (handleSyncError item message w)).
Proof.
  intros Hne Hin. rewrite handleSyncError_queue. apply set_retry_miss; assumption.
Qed.

Lemma handleSyncError_bumps (e : SyncQueueItem) (message : string) (w : World) :
  In e (sync_queue w) ->
  In (with_retry e (q_retry_count e + 1)
        (if maxRetries <=? q_retry_count e + 1
         then "Permanent failure: " ++ message else message))
     (sync_queue (handleSyncError e message w)).
Proof.
  intros Hin. rewrite handleSyncError_queue. apply set_retry_hit, Hin.
Qed.

Lemma updateSyncStatus_keeps (env : Env) (qid : string) (st : SyncStatus)
  (serverData : option Task) (e : SyncQueueItem) (w : World) :
  q_id e <> qid ->
  In e (sync_queue w) -> In e (sync_queue (updateSyncStatus env qid st serverData w)).
Proof.
  intros Hne Hin. unfold updateSyncStatus.
  destruct st; try exact Hin.
  destruct (find _ (sync_queue w)); [|exact Hin].
  simpl. apply filter_In. split; [exact Hin|].
  apply String.eqb_neq in Hne. rewrite Hne. reflexivity.
Qed.

Arguments handleSyncError : simpl never.
Arguments updateSyncStatus : simpl never.

Section BatchFootprint.

Variable R : Type.
Variable transport : R -> BatchSyncRequest -> R * (string + BatchSyncResponse).
Variable env : Env.

(** A row whose id is not the id of any item of the batch survives the
    processing of the batch's outcomes, whatever they are. *)
Lemma sync_outcomes_keeps (batch : list SyncQueueItem) (e : SyncQueueItem)
  (ps : list ProcessedItem) (w : World) (res : SyncResult) :
  (forall it, In it batch -> q_id it <> q_id e) ->
  In e (sync_queue w) ->
  In e (sync_queue (fst (fst (sync_outcomes env batch ps w res)))).
Proof.
  intros Hapart. revert w res.
  induction ps as [|p ps IH]; intros w res Hin; simpl; [exact Hin|].
  destruct (find _ batch) as [it|] eqn:Hfind.
  - apply find_some in Hfind. destruct Hfind as [Hit _].
    pose proof (Hapart it Hit) as Hne.
    destruct (is_synced_status (status p)); apply IH.
    + apply updateSyncStatus_keeps; [congruence|exact Hin].
    + simpl. apply handleSyncError_keeps; [congruence|exact Hin].
  - destruct (is_synced_status (status p)); exact Hin.
Qed.

Lemma sync_failed_keeps (message : string) (its : list SyncQueueItem)
  (e : SyncQueueItem) (w : World) (res : SyncResult) :
  (forall it, In it its -> q_id it <> q_id e) ->
  In e (sync_queue w) ->
  In e (sync_queue (fst (sync_failed env message its w res))).
Proof.
  revert w res. induction its as [|item its IH]; intros w res Hapart Hin; simpl;
    [exact Hin|].
  apply IH; [intros it Hit; apply Hapart; right; exact Hit|].
  simpl. apply handleSyncError_keeps; [|exact Hin].
  intros Heq. apply (Hapart item); [left; reflexivity|congruence].
Qed.

(** The [catch] block brings every entry of the batch to the retry
    handler once. *)
Lemma sync_failed_bumps (message : string) (its : list SyncQueueItem)
  (e : SyncQueueItem) (w : World) (res : SyncResult) :
  NoDup (map q_id its) -> In e its ->
  In e (sync_queue w) ->
  In (with_retry e (q_retry_count e + 1)
        (if maxRetries <=? q_retry_count e + 1
         then "Permanent failure: " ++ message else message))
     (sync_queue (fst (sync_failed env message its w res))).
Proof.
  revert w res. induction its as [|item its IH]; intros w res Hnd He Hin;
    simpl in *; [contradiction|].
  inversion Hnd as [|? ? Hnotin Hnd']; subst.
  destruct He as [->|He].
  - apply sync_failed_keeps.
    + intros it Hit Heq. apply Hnotin. simpl in Heq. rewrite <- Heq.
      apply in_map, Hit.
    + simpl. apply handleSyncError_bumps, Hin.
  - apply IH; [exact Hnd'|exact He|].
    simpl. apply handleSyncError_keeps; [|exact Hin].
    intros Heq. apply Hnotin. rewrite <- Heq. apply in_map, He.
Qed.

Lemma sync_batch_keeps (s : SyncState R) (batch : list SyncQueueItem)
  (e : SyncQueueItem) :
  (forall it, In it batch -> q_id it <> q_id e) ->
  In e (sync_queue (local s)) ->
  In e (sync_queue (local (sync_batch transport env s batch))).
Proof.
  intros Hapart Hin. unfold sync_batch, processBatch.
  destruct (transport (remote s) _) as [r' [message|response]]; simpl.
  - destruct (sync_failed _ _ _ _ _) as [w4 res4] eqn:E. simpl.
    change w4 with (fst (w4, res4)). rewrite <- E.
    apply sync_failed_keeps; [exact Hapart|exact Hin].
  - destruct (sync_outcomes _ _ _ _ _) as [[w2 res2] thrown] eqn:E.
    assert (Hw2 : In e (sync_queue w2)).
    { change w2 with (fst (fst (w2, res2, thrown))). rewrite <- E.
      apply sync_outcomes_keeps; [exact Hapart|exact Hin]. }
    destruct thrown as [message|]; simpl; [|exact Hw2].
    destruct (sync_failed _ _ _ _ _) as [w4 res4] eqn:E'. simpl.
    change w4 with (fst (w4, res4)). rewrite <- E'.
    apply sync_failed_keeps; [exact Hapart|exact Hw2].
Qed.

Lemma sync_batches_keeps (batches : list (list SyncQueueItem)) (s : SyncState R)
  (e : SyncQueueItem) :
  (forall it, In it (List.concat batches) -> q_id it <> q_id e) ->
  In e (sync_queue (local s)) ->
  In e (sync_queue (local (sync_batches transport env batches s))).
Proof.
  unfold sync_batches. revert s.
  induction batches as [|b batches IH]; intros s Hapart Hin; simpl; [exact Hin|].
  apply IH.
  - intros it Hit. apply Hapart. simpl. apply in_or_app. right. exact Hit.
  - apply sync_batch_keeps; [|exact Hin].
    intros it Hit. apply Hapart. simpl. apply in_or_app. left. exact Hit.
Qed.

End BatchFootprint.

(* ================================================================== *)
(** ** The sync run: a batch the transport fails to deliver            *)
(* ================================================================== *)

Section TransportFailure.

Variable R : Type.
Variable transport : R -> BatchSyncRequest -> R * (string + BatchSyncResponse).
Variable env : Env.

Lemma sync_outcomes_failed (batch : list SyncQueueItem) (ps : list ProcessedItem)
  (w : World) (res : SyncResult) :
  (failed_items res
   <= failed_items (snd (fst (sync_outcomes env batch ps w res))))%nat.
Proof.
  revert w res. induction ps as [|p ps IH]; intros w res; simpl; [lia|].
  destruct (is_synced_status (status p)), (find _ batch); simpl;
    try lia; (eapply Nat.le_trans; [|apply IH]); simpl; lia.
Qed.

Lemma sync_failed_failed (message : string) (its : list SyncQueueItem)
  (w : World) (res : SyncResult) :
  failed_items (snd (sync_failed env message its w res)) = failed_items res.
Proof.
  revert w res. induction its as [|item its IH]; intros w res; simpl;
    [reflexivity|].
  rewrite IH. reflexivity.
Qed.

(** What the turn of the loop does with a batch that is not delivered. *)
Lemma sync_batch_not_delivered (s : SyncState R) (batch : list SyncQueueItem)
  (r' : R) (message : string) :
  transport (remote s) (mkRequest batch (clock env (clock_n (local s))))
  = (r', inl message) ->
  let caught :=
    sync_failed env message batch (tick_clock (local s))
      (mkResult false (synced_items (results s))
                (failed_items (results s) + List.length batch)%nat
                (errors (results s))) in
  sync_batch transport env s batch
  = mkSyncState (fst caught) r' (snd caught) (sent s ++ [batch])%list.
Proof.
  intros Hfail. unfold sync_batch, processBatch. rewrite Hfail. simpl.
  destruct (sync_failed _ _ _ _ _); reflexivity.
Qed.

Lemma sync_batch_failed (s : SyncState R) (batch : list SyncQueueItem) :
  (failed_items (results s)
   <= failed_items (results (sync_batch transport env s batch)))%nat.
Proof.
  unfold sync_batch, processBatch.
  destruct (transport (remote s) _) as [r' [message|response]]; simpl.
  - destruct (sync_failed _ _ _ _ _) as [w4 res4] eqn:E. simpl.
    change res4 with (snd (w4, res4)). rewrite <- E, sync_failed_failed.
    simpl. lia.
  - pose proof (sync_outcomes_failed batch (processed_items response)
                  (tick_clock (local s)) (results s)) as Hle.
    destruct (sync_outcomes _ _ _ _ _) as [[w2 res2] [message|]]; simpl in *;
      [|exact Hle].
    destruct (sync_failed _ _ _ _ _) as [w4 res4] eqn:E. simpl.
    change res4 with (snd (w4, res4)). rewrite <- E, sync_failed_failed.
    simpl. lia.
Qed.

Lemma sync_batches_failed (batches : list (list SyncQueueItem)) (s : SyncState R) :
  (failed_items (results s)
   <= failed_items (results (sync_batches transport env batches s)))%nat.
Proof.
  unfold sync_batches. revert s.
  induction batches as [|b batches IH]; intros s; simpl; [lia|].
  eapply Nat.le_trans; [apply sync_batch_failed|apply IH].
Qed.

(** C5. In any sync run, when the transmission of a batch fails at the
    transport, every entry of that batch goes through the retry handler
    with the transport's message: at the end of the run it is still in the
    Outbox with its [retry_count] one higher.  The run is not aborted: all
    the batches, those after the failed one included, are handed to the
    transport.  The Sync Result has [success = false].  Entry ids are
    unique, as the id generator is assumed to make them. *)
Theorem transport_failure_fails_the_batch (batchSize : nat) (w : World) (r r' : R)
  (pre post : list (list SyncQueueItem)) (batch : list SyncQueueItem)
  (message : string) :
  (0 < batchSize)%nat ->
  NoDup (map q_id (sync_queue w)) ->
  make_batches batchSize (getSyncQueueItems w) = (pre ++ batch :: post)%list ->
  let s1 := sync_batches transport env pre
              (mkSyncState w r (mkResult true 0 0 []) []) in
  transport (remote s1) (mkRequest batch (clock env (clock_n (local s1))))
  = (r', inl message) ->
  let s := sync transport env batchSize w r in
  sent s = (pre ++ batch :: post)%list
  /\ (forall e, In e batch ->
        In e (sync_queue w)
        /\ In (with_retry e (q_retry_count e + 1)
                 (if maxRetries <=? q_retry_count e + 1
                  then "Permanent failure: " ++ message else message))
              (sync_queue (local s)))
  /\ success (results s) = false.
Proof.
  intros Hpos Hnd Hcut s1 Hfail s.
  assert (Hitems : getSyncQueueItems w
                   = (List.concat pre ++ batch ++ List.concat post)%list).
  { rewrite <- (make_batches_concat (getSyncQueueItems w) Hpos), Hcut.
    rewrite concat_app. reflexivity. }
  assert (Hnd' : NoDup (map q_id (getSyncQueueItems w))).
  { eapply Permutation_NoDup; [|exact Hnd].
    apply Permutation_map, Permutation_sym, getSyncQueueItems_perm. }
  assert (Hne : batch <> []).
  { apply (make_batches_nonempty (getSyncQueueItems w) Hpos).
    rewrite Hcut. apply in_or_app. right. left. reflexivity. }
  assert (Hrun : s = let t := sync_batches transport env post
                                (sync_batch transport env s1 batch) in
                     mkSyncState (local t) (remote t)
                       (mkResult (failed_items (results t) =? 0)%nat
                                 (synced_items (results t))
                                 (failed_items (results t)) (errors (results t)))
                       (sent t)).
  { unfold s, sync. destruct (getSyncQueueItems w) as [|x l] eqn:E.
    - destruct pre; discriminate.
    - rewrite Hcut. unfold sync_batches. rewrite fold_left_app. reflexivity. }
  pose proof (@sync_batch_not_delivered s1 batch r' message Hfail) as Hstep.
  cbv zeta in Hstep.
  split; [|split].
  - unfold s. rewrite sync_sent. exact Hcut.
  - intros e He.
    assert (Hqueue : In e (sync_queue w)).
    { apply getSyncQueueItems_In. rewrite Hitems.
      apply in_or_app. right. apply in_or_app. left. exact He. }
    split; [exact Hqueue|].
    rewrite Hrun. cbv zeta. cbn [local].
    apply sync_batches_keeps.
    + intros it Hit. simpl.
      rewrite Hitems, app_assoc in Hnd'.
      intros Heq. apply (@ids_apart _ _ e it Hnd'); auto.
      apply in_or_app. right. exact He.
    + rewrite Hstep. cbn [local].
      apply sync_failed_bumps.
      * rewrite Hitems, !map_app in Hnd'.
        apply NoDup_app_remove_l, NoDup_app_remove_r in Hnd'. exact Hnd'.
      * exact He.
      * simpl. apply sync_batches_keeps; [|exact Hqueue].
        intros it Hit. rewrite Hitems in Hnd'.
        apply (@ids_apart _ _ it e Hnd'); auto.
        apply in_or_app. left. exact He.
  - rewrite Hrun. cbv zeta. cbn [results success].
    apply Nat.eqb_neq.
    pose proof (sync_batches_failed post (sync_batch transport env s1 batch)) as Hle.
    rewrite Hstep in Hle at 1. cbn [results] in Hle.
    rewrite sync_failed_failed in Hle. cbn [failed_items] in Hle.
    destruct batch; [congruence|]. simpl in Hle. lia.
Qed.

End TransportFailure.

(** Batches of two over three entries; the network is down for the first
    batch and back for the second. *)
Lemma transport_failure_fails_the_batch_witness :
  let s := sync (Scenario.flaky [0%nat]) Scenario.client_env 2
                Scenario.three_entries (0%nat, Scenario.empty_world) in
  (sent s = ([] ++ [Scenario.entry_a; Scenario.entry_b] :: [[Scenario.entry_c]])%list
   /\ (forall e, In e [Scenario.entry_a; Scenario.entry_b] ->
         In e (sync_queue Scenario.three_entries)
         /\ In (with_retry e (q_retry_count e + 1)
                  (if maxRetries <=? q_retry_count e + 1
                   then "Permanent failure: " ++ "Network Error"
                   else "Network Error"))
               (sync_queue (local s)))
   /\ success (results s) = false)
  /\ map (fun e => (q_id e, q_retry_count e)) (sync_queue (local s))
     = [("qa", 1); ("qb", 1)].
Proof.
  intros s. split.
  - apply (@transport_failure_fails_the_batch (nat * World)%type
             (Scenario.flaky [0%nat]) Scenario.client_env 2%nat
             Scenario.three_entries (0%nat, Scenario.empty_world)
             (1%nat, Scenario.empty_world)
             [] [[Scenario.entry_c]] [Scenario.entry_a; Scenario.entry_b]
             "Network Error").
    + lia.
    + no_dup_ids.
    + vm_compute. reflexivity.
    + vm_compute. reflexivity.
  - vm_compute. reflexivity.
Defined.

(* ================================================================== *)
(** ** Two entries of one record in one batch                          *)
(* ================================================================== *)

(** C2, at the input where the code departs from it: scenario 2 of the spec
    with the default batch size, against the batch handler of the
    repository on an empty remote store.  The Outbox holds the create and
    the update of record c1, the local title is the updated one.  Both
    entries travel in one batch and both are answered with success; the run
    reports two synced items.  [batch.find] resolves both outcomes to the
    first entry of the batch with that record id, the create: it is deleted
    at the first outcome and not found at the second.  The update entry
    stays in the Outbox and the local record carries the title of the
    create. *)
Theorem create_then_update_leaves_the_update_queued :
  let before := Scenario.after_update in
  let s := Scenario.scenario2 50 in
  map q_operation (sync_queue before) = [OpCreate; OpUpdate]
  /\ map q_task_id (sync_queue before) = ["c1"; "c1"]
  /\ map r_title (tasks before) = ["B"]
  /\ results s = mkResult true 2 0 []
  /\ map (fun e => (q_operation e, q_task_id e, p_title (q_data e)))
         (sync_queue (local s))
     = [(OpUpdate, "c1", Some "B")]
  /\ map (fun t => (r_id t, r_title t, r_sync_status t)) (tasks (local s))
     = [("c1", "A", synced)].
Proof. vm_compute. repeat split. Qed.

(** The same scenario in batches of one, where [batch.find] has one entry to
    choose from: both entries leave the Outbox and the record has the
    updated title. *)
Lemma create_then_update_in_batches_of_one :
  let s := Scenario.scenario2 1 in
  results s = mkResult true 2 0 []
  /\ sync_queue (local s) = []
  /\ map (fun t => (r_id t, r_title t, r_sync_status t)) (tasks (local s))
     = [("c1", "B", synced)].
Proof. vm_compute. repeat split. Qed.

(** C7, at the input where the code departs from it.  The Outbox holds an
    update and a delete of record t1, in one batch.  The remote side answers
    the update with error and the delete with success.  The error outcome
    sends the update entry through the retry handler; the success outcome is
    resolved by [batch.find] to the first entry with that record id, the
    update entry again, which is deleted.  The entry that failed is gone and
    the entry that succeeded is still queued. *)
Theorem entry_answered_with_error_is_deleted :
  let s := sync (Scenario.canned Scenario.failed_then_ok) Scenario.client_env 50
                Scenario.two_entries tt in
  sync_queue Scenario.two_entries
  = [Scenario.update_entry (Scenario.title_only "B"); Scenario.delete_entry]
  /\ sent s = [sync_queue Scenario.two_entries]
  /\ map status Scenario.failed_then_ok = [StError; StSuccess]
  /\ sync_queue (local s) = [Scenario.delete_entry]
  /\ synced_items (results s) = 1%nat
  /\ failed_items (results s) = 1%nat.
Proof. vm_compute. repeat split. Qed.

(** The same run against the batch handler of the repository, on a remote
    store where the create that stands in for the update of the unknown
    record t1 hits the primary key: the handler answers error, then success,
    and the client deletes the update entry and keeps the delete entry. *)
Lemma entry_answered_with_error_is_deleted_by_the_handler :
  let answer := processed_items
                  (snd (batch_handler (taskService Scenario.stuck_env)
                          (mkRequest (sync_queue Scenario.two_entries) 1000)
                          Scenario.server_has_s1)) in
  let s := sync (remote_transport Scenario.stuck_env) Scenario.client_env 50
                Scenario.two_entries Scenario.server_has_s1 in
  map status answer = [StError; StSuccess]
  /\ sync_queue (local s) = [Scenario.delete_entry].
Proof. vm_compute. split; reflexivity. Qed.

(** C4, at the input where the code departs from it.  The Outbox holds two
    updates of record t1, q1 and q2, both with [retry_count = 0].  In three
    consecutive runs both travel in one batch and the remote side answers
    both with error; each run reports two failed items and two errors for
    t1.  [batch.find] resolves both outcomes to the first entry of the batch
    with that record id, so the retry handler is called twice on q1, as the
    run loaded it, and never on q2.  After the third run q1 has
    [retry_count = 3] and a permanent failure, the record is in error and
    both entries are still queued, but q2, which failed three times, has
    [retry_count = 0] and no error message. *)
Theorem second_entry_of_a_record_is_never_counted :
  let runs := Scenario.three_runs (Scenario.canned Scenario.both_failed)
                Scenario.client_env 50 Scenario.two_updates tt in
  map (fun e => (q_id e, q_task_id e, q_retry_count e, q_error_message e))
      (sync_queue Scenario.two_updates)
  = [("q1", "t1", 0, None); ("q2", "t1", 0, None)]
  /\ map status Scenario.both_failed = [StError; StError]
  /\ map (fun s => map (map q_id) (sent s)) runs
     = [[["q1"; "q2"]]; [["q1"; "q2"]]; [["q1"; "q2"]]]
  /\ map (fun s => (success (results s), synced_items (results s),
                    failed_items (results s), map se_task_id (errors (results s))))
         runs
     = [(false, 0%nat, 2%nat, ["t1"; "t1"]); (false, 0%nat, 2%nat, ["t1"; "t1"]);
        (false, 0%nat, 2%nat, ["t1"; "t1"])]
  /\ map (fun s => map (fun e => (q_id e, q_retry_count e)) (sync_queue (local s)))
         runs
     = [[("q1", 1); ("q2", 0)]; [("q1", 2); ("q2", 0)]; [("q1", 3); ("q2", 0)]]
  /\ map (fun s => map (fun e => (q_id e, q_error_message e)) (sync_queue (local s)))
         (skipn 2 runs)
     = [[("q1", Some "Permanent failure: SQLITE_BUSY"); ("q2", None)]]
  /\ map (fun s => map (fun t => (r_id t, r_sync_status t)) (tasks (local s)))
         (skipn 2 runs)
     = [[("t1", error)]].
Proof. vm_compute. repeat split. Qed.

(** The same three runs against the batch handler of the repository, on a
    remote store where the create that stands in for an update of the
    unknown record t1 hits the primary key every time: the handler answers
    both entries with error in every run, and the second entry is never
    counted. *)
Lemma second_entry_is_never_counted_by_the_handler :
  let runs := Scenario.three_runs (remote_transport Scenario.stuck_env)
                Scenario.client_env 50 Scenario.two_updates
                Scenario.server_has_s1 in
  map (fun s => (failed_items (results s), map se_task_id (errors (results s))))
      runs
  = [(2%nat, ["t1"; "t1"]); (2%nat, ["t1"; "t1"]); (2%nat, ["t1"; "t1"])]
  /\ map (fun s => map (fun e => (q_id e, q_retry_count e)) (sync_queue (local s)))
         runs
     = [[("q1", 1); ("q2", 0)]; [("q1", 2); ("q2", 0)]; [("q1", 3); ("q2", 0)]].
Proof. vm_compute. split; reflexivity. Qed.

(** An entry that is alone in its batch is counted: the same Outbox in
    batches of one, every entry answered with error in three runs, ends
    with both entries at [retry_count = 3] and a permanent failure. *)
Lemma entries_in_batches_of_one_are_counted :
  let answer := [mkProcessed "t1" EmptyString StError None (Some "SQLITE_BUSY")] in
  let runs := Scenario.three_runs (Scenario.canned answer)
                Scenario.client_env 1 Scenario.two_updates tt in
  map (fun s => map (fun e => (q_id e, q_retry_count e)) (sync_queue (local s)))
      runs
  = [[("q1", 1); ("q2", 1)]; [("q1", 2); ("q2", 2)]; [("q1", 3); ("q2", 3)]]
  /\ map (fun s => map (fun e => (q_id e, q_error_message e)) (sync_queue (local s)))
         (skipn 2 runs)
     = [[("q1", Some "Permanent failure: SQLITE_BUSY");
         ("q2", Some "Permanent failure: SQLITE_BUSY")]].
Proof. vm_compute. split; reflexivity. Qed.

(** What does hold of deletions: the retry handler removes no entry, and
    neither does a batch that is not delivered. *)
Lemma sync_failed_ids (env : Env) (message : string) (its : list SyncQueueItem)
  (w : World) (res : SyncResult) :
  map q_id (sync_queue (fst (sync_failed env message its w res)))
  = map q_id (sync_queue w).
Proof.
  revert w res. induction its as [|item its IH]; intros w res; simpl;
    [reflexivity|].
  rewrite IH. simpl. apply handleSyncError_ids.
Qed.

Lemma not_delivered_keeps_every_entry (R : Type)
  (transport : R -> BatchSyncRequest -> R * (string + BatchSyncResponse))
  (env : Env) (s : SyncState R) (batch : list SyncQueueItem) (r' : R)
  (message : string) :
  transport (remote s) (mkRequest batch (clock env (clock_n (local s))))
  = (r', inl message) ->
  map q_id (sync_queue (local (sync_batch transport env s batch)))
  = map q_id (sync_queue (local s)).
Proof.
  intros Hfail.
  rewrite (@sync_batch_not_delivered R transport env s batch r' message Hfail).
  cbv zeta. cbn [local]. rewrite sync_failed_ids. reflexivity.
Qed.

(** Three runs in a row with the network down: every entry of the Outbox
    ends with [retry_count = 3] and a permanent failure, none has left, and
    every record is in error. *)
Lemma three_runs_without_network :
  let run w := local (sync Scenario.unreachable Scenario.client_env 2 w tt) in
  let w3 := run (run (run Scenario.three_entries)) in
  map (fun e => (q_id e, q_retry_count e, q_error_message e)) (sync_queue w3)
  = [("qc", 3, Some "Permanent failure: Network Error");
     ("qa", 3, Some "Permanent failure: Network Error");
     ("qb", 3, Some "Permanent failure: Network Error")]
  /\ map (fun t => (r_id t, r_sync_status t)) (tasks w3)
     = [("a", error); ("b", error); ("c", error)].
Proof. vm_compute. split; reflexivity. Qed.

(* ================================================================== *)
(** ** TaskService: create, delete, read back                          *)
(* ================================================================== *)

Lemma find_none_of (A : Type) (f : A -> bool) (l : list A) :
  (forall x, In x l -> f x = false) -> find f l = None.
Proof.
  induction l as [|a l IH]; simpl; intros H; [reflexivity|].
  rewrite (H a (or_introl eq_refl)). apply IH. intros x Hx. apply H. right. exact Hx.
Qed.

Lemma existsb_false_find (A : Type) (f : A -> bool) (l : list A) :
  existsb f l = false -> find f l = None.
Proof.
  induction l as [|a l IH]; simpl; [reflexivity|].
  destruct (f a); simpl; [discriminate|exact IH].
Qed.

Lemma find_app_last (A : Type) (f : A -> bool) (l : list A) (x : A) :
  find f l = None -> f x = true -> find f (l ++ [x]) = Some x.
Proof.
  induction l as [|a l IH]; simpl; intros Hl Hx.
  - rewrite Hx. reflexivity.
  - destruct (f a); [discriminate|]. apply IH; assumption.
Qed.

Lemma find_app_keep (A : Type) (f : A -> bool) (l : list A) (x : A) :
  f x = false -> find f (l ++ [x]) = find f l.
Proof.
  intros Hx. induction l as [|a l IH]; simpl.
  - rewrite Hx. reflexivity.
  - destruct (f a); [reflexivity|exact IH].
Qed.

(** The row [createTask] inserts and the Outbox entry it appends. *)
Lemma createTask_ok (env : Env) (taskData : TaskPatch) (title : string) (w : World) :
  p_title taskData = Some title ->
  existsb (fun r => r_id r =? uuid env (uuid_n w))%string (tasks w) = false ->
  existsb (fun e => q_id e =? uuid env (S (uuid_n w)))%string (sync_queue w) = false ->
  createTask env taskData w
  = (mkWorld
       (tasks w
        ++ [mkRawTask (uuid env (uuid_n w)) title (or_empty (p_description taskData))
                      0 (clock env (clock_n w)) (clock env (clock_n w)) 0
                      pending None None])%list
       (sync_queue w
        ++ [mkItem (uuid env (S (uuid_n w))) (uuid env (uuid_n w)) OpCreate
                   (mkPatch None (Some title)
                            (Some (or_empty (p_description taskData)))
                            None None None None None None None)
                   (clock env (S (clock_n w))) 0 None])%list
       (S (S (clock_n w))) (S (S (uuid_n w))),
     Ok (Some (mkTask (uuid env (uuid_n w)) title
                      (or_empty (p_description taskData)) false
                      (clock env (clock_n w)) (clock env (clock_n w)) false
                      pending None None))).
Proof.
  intros Htitle Hfresh Hqfresh.
  unfold createTask, getTaskById, addToSyncQueue, new_Date, uuidv4,
    db_INSERT_task, db_INSERT_sync_queue, db_SELECT_task_by_id.
  run_monad. rewrite Htitle. simpl. rewrite Hfresh. simpl. rewrite Hqfresh. simpl.
  rewrite find_app_last.
  - reflexivity.
  - apply existsb_false_find, Hfresh.
  - simpl. apply String.eqb_refl.
Qed.

(** X1. With a title in the fields and unused ids, [createTask] stores one
    new record (pending, not completed, not deleted, description defaulting
    to the empty string, both dates the clock reading), appends one Outbox
    entry of kind create for it that carries the title and the description
    and nothing else, and returns the stored record. *)
Theorem createTask_stores_and_enqueues (env : Env) (taskData : TaskPatch)
  (title : string) (w : World) :
  p_title taskData = Some title ->
  existsb (fun r => r_id r =? uuid env (uuid_n w))%string (tasks w) = false ->
  existsb (fun e => q_id e =? uuid env (S (uuid_n w)))%string (sync_queue w) = false ->
  let id := uuid env (uuid_n w) in
  let now := clock env (clock_n w) in
  let description := or_empty (p_description taskData) in
  exists w',
    createTask env taskData w
    = (w', Ok (Some (mkTask id title description false now now false
                            pending None None)))
    /\ tasks w'
       = (tasks w ++ [mkRawTask id title description 0 now now 0 pending None None])%list
    /\ sync_queue w'
       = (sync_queue w
          ++ [mkItem (uuid env (S (uuid_n w))) id OpCreate
                     (mkPatch None (Some title) (Some description)
                              None None None None None None None)
                     (clock env (S (clock_n w))) 0 None])%list.
Proof.
  intros Htitle Hfresh Hqfresh id now description.
  eexists. split; [apply createTask_ok; assumption|].
  split; reflexivity.
Qed.

Lemma createTask_stores_and_enqueues_witness :
  exists w',
    createTask Scenario.client_env (Scenario.title_only "A") Scenario.empty_world
    = (w', Ok (Some (mkTask "c1" "A" EmptyString false 1000 1000 false
                            pending None None)))
    /\ tasks w'
       = [mkRawTask "c1" "A" EmptyString 0 1000 1000 0 pending None None]
    /\ sync_queue w'
       = [mkItem "c2" "c1" OpCreate
                 (mkPatch None (Some "A") (Some EmptyString)
                          None None None None None None None) 1001 0 None].
Proof.
  apply (@createTask_stores_and_enqueues Scenario.client_env
           (Scenario.title_only "A") "A" Scenario.empty_world);
    reflexivity.
Defined.

(** X2. The record [createTask] returns can be read back: [getTask] and
    [getTaskById] return it, and both [getAllTasks] and
    [getTasksNeedingSync] list it. *)
Theorem created_task_is_visible (env : Env) (taskData : TaskPatch)
  (title : string) (w w' : World) (t : Task) :
  p_title taskData = Some title ->
  existsb (fun r => r_id r =? uuid env (uuid_n w))%string (tasks w) = false ->
  existsb (fun e => q_id e =? uuid env (S (uuid_n w)))%string (sync_queue w) = false ->
  createTask env taskData w = (w', Ok (Some t)) ->
  getTaskById (t_id t) w' = (w', Ok (Some t))
  /\ getTask (t_id t) w' = (w', Ok (Some t))
  /\ (exists ts, getAllTasks w' = (w', Ok ts) /\ In t ts)
  /\ (exists ts, getTasksNeedingSync w' = (w', Ok ts) /\ In t ts).
Proof.
  intros Htitle Hfresh Hqfresh Hrun.
  rewrite (@createTask_ok env taskData title w Htitle Hfresh Hqfresh) in Hrun.
  injection Hrun as <- <-.
  unfold getTaskById, getTask, getAllTasks, getTasksNeedingSync, gets,
    db_SELECT_task_by_id, db_SELECT_active_task.
  cbn [tasks t_id].
  assert (Hnone : forall x, In x (tasks w) ->
                    (r_id x =? uuid env (uuid_n w))%string = false).
  { intros x Hx. destruct (r_id x =? uuid env (uuid_n w))%string eqn:E; auto.
    rewrite <- Hfresh. symmetry. apply existsb_exists. exists x. auto. }
  split; [|split; [|split]].
  - rewrite find_app_last; [reflexivity| |simpl; apply String.eqb_refl].
    apply find_none_of, Hnone.
  - rewrite find_app_last; [reflexivity| |simpl; rewrite String.eqb_refl; reflexivity].
    apply find_none_of. intros x Hx. rewrite (Hnone x Hx). reflexivity.
  - eexists. split; [reflexivity|].
    rewrite filter_app, map_app. apply in_or_app. right. simpl. left. reflexivity.
  - eexists. split; [reflexivity|].
    rewrite filter_app, map_app. apply in_or_app. right. simpl. left. reflexivity.
Qed.

Lemma created_task_is_visible_witness :
  let t := mkTask "c1" "A" EmptyString false 1000 1000 false pending None None in
  getTaskById "c1" Scenario.after_create = (Scenario.after_create, Ok (Some t))
  /\ getTask "c1" Scenario.after_create = (Scenario.after_create, Ok (Some t))
  /\ (exists ts, getAllTasks Scenario.after_create = (Scenario.after_create, Ok ts)
                 /\ In t ts)
  /\ (exists ts, getTasksNeedingSync Scenario.after_create
                 = (Scenario.after_create, Ok ts) /\ In t ts).
Proof.
  intros t.
  apply (@created_task_is_visible Scenario.client_env (Scenario.title_only "A") "A"
           Scenario.empty_world Scenario.after_create t);
    reflexivity.
Defined.

(** X3. The record and its Outbox entry are two separate writes: when the
    insert into the Outbox is rejected (its id is taken) after the record was
    inserted, [createTask] throws and the record stays in the store, pending,
    with no Outbox entry for it. *)
Theorem createTask_leaves_record_when_enqueue_fails (env : Env)
  (taskData : TaskPatch) (title : string) (w : World) :
  p_title taskData = Some title ->
  existsb (fun r => r_id r =? uuid env (uuid_n w))%string (tasks w) = false ->
  existsb (fun e => q_id e =? uuid env (S (uuid_n w)))%string (sync_queue w) = true ->
  exists w' message,
    createTask env taskData w = (w', Throw message)
    /\ tasks w'
       = (tasks w
          ++ [mkRawTask (uuid env (uuid_n w)) title (or_empty (p_description taskData))
                        0 (clock env (clock_n w)) (clock env (clock_n w)) 0
                        pending None None])%list
    /\ sync_queue w' = sync_queue w.
Proof.
  intros Htitle Hfresh Htaken.
  unfold createTask, getTaskById, addToSyncQueue, new_Date, uuidv4,
    db_INSERT_task, db_INSERT_sync_queue.
  run_monad. rewrite Htitle. simpl. rewrite Hfresh. simpl. rewrite Htaken. simpl.
  eexists. eexists. split; [reflexivity|]. split; reflexivity.
Qed.

Lemma createTask_leaves_record_when_enqueue_fails_witness :
  exists w' message,
    createTask Scenario.stuck_env (Scenario.title_only "A") Fixture.queue_has_s1
    = (w', Throw message)
    /\ tasks w'
       = [mkRawTask "s1" "A" EmptyString 0 5000 5000 0 pending None None]
    /\ sync_queue w' = sync_queue Fixture.queue_has_s1.
Proof.
  apply (@createTask_leaves_record_when_enqueue_fails Scenario.stuck_env
           (Scenario.title_only "A") "A" Fixture.queue_has_s1);
    reflexivity.
Defined.

Lemma soft_deleted_rows (id : string) (now : Z) (ts : list RawTask) (x : RawTask) :
  In x (update_where_id id (apply_set (soft_delete_patch now)) ts) ->
  (r_id x =? id)%string && (r_is_deleted x =? 0) = false.
Proof.
  intros Hin. unfold update_where_id in Hin.
  apply in_map_iff in Hin. destruct Hin as (y & Hy & _).
  destruct (r_id y =? id)%string eqn:E; subst x; simpl.
  - rewrite E. reflexivity.
  - rewrite E. reflexivity.
Qed.

(** X4. [deleteTask] of a record that exists, soft-deleted already or not, is
    a soft delete: it returns true; the record stays in the store under its
    id with [is_deleted] set, [sync_status = pending] and [updated_at] the
    clock reading, its other fields as they were; [getTask] no longer
    returns it and [getAllTasks] no longer lists it, while [getTaskById]
    still returns it and [getTasksNeedingSync] lists it; and one Outbox
    entry of kind delete with an empty payload is appended. *)
Theorem deleteTask_soft_deletes (env : Env) (id : string) (w : World) (r : RawTask) :
  db_SELECT_task_by_id id w = Some r ->
  existsb (fun e => q_id e =? uuid env (uuid_n w))%string (sync_queue w) = false ->
  let deleted :=
    mkTask (r_id r) (r_title r) (r_description r) (truthy (r_completed r))
           (r_created_at r) (clock env (clock_n w)) true pending
           (r_server_id r) (r_last_synced_at r) in
  exists w',
    deleteTask env id w = (w', Ok true)
    /\ getTaskById id w' = (w', Ok (Some deleted))
    /\ getTask id w' = (w', Ok None)
    /\ (exists ts, getAllTasks w' = (w', Ok ts) /\ forall t, In t ts -> t_id t <> id)
    /\ (exists ts, getTasksNeedingSync w' = (w', Ok ts) /\ In deleted ts)
    /\ sync_queue w'
       = (sync_queue w
          ++ [mkItem (uuid env (uuid_n w)) id OpDelete empty_patch
                     (clock env (S (clock_n w))) 0 None])%list
    /\ map r_id (tasks w') = map r_id (tasks w).
Proof.
  intros Hfind Hfresh deleted.
  eexists. split; [apply (@deleteTask_found env id w r Hfind Hfresh)|].
  unfold getTaskById, getTask, getAllTasks, getTasksNeedingSync, gets,
    db_SELECT_task_by_id, db_SELECT_active_task in *.
  cbn [tasks sync_queue].
  split; [|split; [|split; [|split; [|split]]]].
  - rewrite find_update_where_id by reflexivity. rewrite Hfind. reflexivity.
  - rewrite find_none_of; [reflexivity|].
    intros x Hx. eapply soft_deleted_rows, Hx.
  - eexists. split; [reflexivity|].
    intros t Ht. apply in_map_iff in Ht. destruct Ht as (x & <- & Hx).
    apply filter_In in Hx. destruct Hx as [Hx Hlive].
    apply soft_deleted_rows in Hx. rewrite Hlive, andb_true_r in Hx.
    simpl. apply String.eqb_neq, Hx.
  - eexists. split; [reflexivity|].
    apply in_map_iff.
    exists (apply_set (soft_delete_patch (clock env (clock_n w))) r).
    split; [reflexivity|]. apply filter_In. split; [|reflexivity].
    apply find_some in Hfind. destruct Hfind as [Hin Hid].
    unfold update_where_id. apply in_map_iff. exists r. rewrite Hid. auto.
  - reflexivity.
  - apply update_where_id_ids. reflexivity.
Qed.

(** A record that is soft-deleted already is deleted once more. *)
Lemma deleteTask_soft_deletes_witness :
  let deleted := mkTask "t1" "A" EmptyString false 900 1000 true pending None None in
  exists w',
    deleteTask Scenario.client_env "t1" Scenario.world_soft_deleted = (w', Ok true)
    /\ getTaskById "t1" w' = (w', Ok (Some deleted))
    /\ getTask "t1" w' = (w', Ok None)
    /\ (exists ts, getAllTasks w' = (w', Ok ts) /\ forall t, In t ts -> t_id t <> "t1")
    /\ (exists ts, getTasksNeedingSync w' = (w', Ok ts) /\ In deleted ts)
    /\ sync_queue w' = [mkItem "c1" "t1" OpDelete empty_patch 1001 0 None]
    /\ map r_id (tasks w') = ["t1"].
Proof.
  apply (@deleteTask_soft_deletes Scenario.client_env "t1"
           Scenario.world_soft_deleted (Scenario.row_t1 1));
    reflexivity.
Defined.

(** X5. [getTask] only returns records that are not soft-deleted, and with
    record ids unique it returns a record exactly when [getTaskById] returns
    that record and it is not soft-deleted; neither writes to the store. *)
Theorem getTask_is_getTaskById_of_live (id : string) (w : World) (t : Task) :
  NoDup (map r_id (tasks w)) ->
  (getTask id w = (w, Ok (Some t))
   <-> getTaskById id w = (w, Ok (Some t)) /\ t_is_deleted t = false).
Proof.
  intros Hnd. unfold getTask, getTaskById, gets,
    db_SELECT_active_task, db_SELECT_task_by_id.
  induction (tasks w) as [|a ts IH]; simpl.
  - split; [discriminate|intros [H _]; discriminate].
  - inversion Hnd as [|? ? Hnotin Hnd']; subst.
    destruct (r_id a =? id)%string eqn:E; simpl.
    + destruct (r_is_deleted a =? 0) eqn:D; simpl.
      * unfold truthy. split.
        -- intros H. injection H as <-. simpl. rewrite D. auto.
        -- intros [H _]. exact H.
      * split.
        -- intros H. exfalso.
           assert (Hf : find (fun r => (r_id r =? id)%string && (r_is_deleted r =? 0)) ts
                        <> None).
           { intros Hn. rewrite Hn in H. discriminate. }
           apply Hf, find_none_of. intros x Hx.
           destruct (r_id x =? id)%string eqn:Ex; [|reflexivity].
           exfalso. apply Hnotin.
           apply String.eqb_eq in E, Ex. rewrite E, <- Ex. apply in_map, Hx.
        -- intros [H Hlive]. injection H as <-. simpl in Hlive.
           unfold truthy in Hlive. rewrite D in Hlive. discriminate.
    + apply IH, Hnd'.
Qed.

Lemma getTask_is_getTaskById_of_live_witness :
  let t := mkTask "t1" "A" EmptyString false 900 1000 false synced None None in
  getTask "t1" Fixture.two_records = (Fixture.two_records, Ok (Some t))
  <-> getTaskById "t1" Fixture.two_records = (Fixture.two_records, Ok (Some t))
      /\ t_is_deleted t = false.
Proof.
  apply (@getTask_is_getTaskById_of_live "t1" Fixture.two_records).
  no_dup_ids.
Defined.

(** X6. [updateTask] of a record that exists, with fields that leave the id
    alone and do not leave the record soft-deleted: the returned record has
    [updated_at] the clock reading and [sync_status = pending] whatever the
    fields say about these two, every other field is the caller's where the
    caller names it and the stored one otherwise, and the returned record is
    the one [getTaskById] then reads. *)
Theorem updateTask_stamps_and_returns (env : Env) (id : string)
  (updates : TaskPatch) (w : World) (r : RawTask) :
  NoDup (map r_id (tasks w)) ->
  db_SELECT_task_by_id id w = Some r ->
  p_id updates = None ->
  existsb (fun e => q_id e =? uuid env (uuid_n w))%string (sync_queue w) = false ->
  opt_or (option_map bool_to_int (p_is_deleted updates)) (r_is_deleted r) = 0 ->
  exists w' t,
    updateTask env id updates w = (w', Ok (Some t))
    /\ t_updated_at t = clock env (clock_n w)
    /\ t_sync_status t = pending
    /\ t_id t = r_id r
    /\ t_title t = opt_or (p_title updates) (r_title r)
    /\ t_description t = opt_or (p_description updates) (r_description r)
    /\ t_completed t
       = truthy (opt_or (option_map bool_to_int (p_completed updates)) (r_completed r))
    /\ t_is_deleted t = false
    /\ getTaskById id w' = (w', Ok (Some t)).
Proof.
  intros Hnd Hfind Hpid Hfresh Hlive.
  pose proof (@updateTask_found env id updates w r Hnd Hfind Hpid Hfresh) as Hrun.
  cbv zeta in Hrun.
  assert (Hd : r_is_deleted (apply_set (stamp updates (clock env (clock_n w))) r) = 0)
    by exact Hlive.
  rewrite Hd in Hrun. change (0 =? 0) with true in Hrun. cbv iota in Hrun.
  eexists. eexists. split; [exact Hrun|].
  simpl. rewrite Hpid, Hlive. simpl.
  repeat (split; [reflexivity|]).
  unfold getTaskById, gets, db_SELECT_task_by_id in *. simpl.
  rewrite find_update_where_id, Hfind.
  - simpl. rewrite Hpid, Hlive. reflexivity.
  - intros x. simpl. rewrite Hpid. reflexivity.
Qed.

(** The caller tries to set [updated_at] and [sync_status] itself. *)
Lemma updateTask_stamps_and_returns_witness :
  let updates := mkPatch None (Some "B") None (Some true) None (Some 1)
                         None (Some synced) None None in
  exists w' t,
    updateTask Scenario.client_env "t1" updates Scenario.world_live = (w', Ok (Some t))
    /\ t_updated_at t = 1000
    /\ t_sync_status t = pending
    /\ t_id t = "t1"
    /\ t_title t = "B"
    /\ t_description t = EmptyString
    /\ t_completed t = true
    /\ t_is_deleted t = false
    /\ getTaskById "t1" w' = (w', Ok (Some t)).
Proof.
  intros updates.
  apply (@updateTask_stamps_and_returns Scenario.client_env "t1" updates
           Scenario.world_live (Scenario.row_t1 0)); try reflexivity.
  no_dup_ids.
Defined.

(** X7. POST /tasks: a body with no title, or an empty one, is answered 400
    and nothing is read or written, not even the clock; a body with a title
    is answered 201 with the new record, for which only the title and the
    description of the body are used. *)
Theorem route_post_task_answers (env : Env) (reqBody : TaskPatch) (w : World) :
  (falsy_string (p_title reqBody) = true ->
   route_post_task env reqBody w
   = (w, Ok (mkResponseOf 400 (JsonError "Title is required"))))
  /\ (forall title,
        p_title reqBody = Some title -> title <> EmptyString ->
        existsb (fun r => r_id r =? uuid env (uuid_n w))%string (tasks w) = false ->
        existsb (fun e => q_id e =? uuid env (S (uuid_n w)))%string (sync_queue w)
        = false ->
        exists w',
          route_post_task env reqBody w
          = (w', Ok (mkResponseOf 201
                       (JsonTask
                          (Some (mkTask (uuid env (uuid_n w)) title
                                        (or_empty (p_description reqBody)) false
                                        (clock env (clock_n w)) (clock env (clock_n w))
                                        false pending None None)))))
          /\ List.length (tasks w') = S (List.length (tasks w))
          /\ List.length (sync_queue w') = S (List.length (sync_queue w))).
Proof.
  split.
  - intros Hfalsy. unfold route_post_task, try_catch. rewrite Hfalsy. reflexivity.
  - intros title Htitle Hne Hfresh Hqfresh.
    assert (Hf : falsy_string (p_title reqBody) = false).
    { rewrite Htitle. destruct title; [congruence|reflexivity]. }
    pose proof (@createTask_ok env
                  (mkPatch None (p_title reqBody) (p_description reqBody)
                           None None None None None None None)
                  title w Htitle Hfresh Hqfresh) as Hrun.
    unfold route_post_task, try_catch, bind, respond, ret.
    rewrite Hf, Hrun. cbn [p_description].
    eexists. split; [reflexivity|].
    cbn [tasks sync_queue]. rewrite !length_app. simpl. split; lia.
Qed.

Lemma route_post_task_answers_witness :
  route_post_task Scenario.client_env
    (mkPatch None (Some EmptyString) (Some "d") None None None None None None None)
    Scenario.empty_world
  = (Scenario.empty_world, Ok (mkResponseOf 400 (JsonError "Title is required")))
  /\ exists w',
       route_post_task Scenario.client_env
         (mkPatch (Some "mine") (Some "A") None (Some true) None None (Some true)
                  (Some synced) None None)
         Scenario.empty_world
       = (w', Ok (mkResponseOf 201
                    (JsonTask (Some (mkTask "c1" "A" EmptyString false 1000 1000
                                            false pending None None)))))
       /\ List.length (tasks w') = 1%nat
       /\ List.length (sync_queue w') = 1%nat.
Proof.
  split.
  - apply (proj1 (route_post_task_answers Scenario.client_env _ Scenario.empty_world)).
    reflexivity.
  - apply (proj2 (route_post_task_answers Scenario.client_env
                    (mkPatch (Some "mine") (Some "A") None (Some true) None None
                             (Some true) (Some synced) None None)
                    Scenario.empty_world) "A");
      try reflexivity.
    discriminate.
Defined.

(** X8. DELETE /tasks/:id answers 204 for a record that exists, also when it
    is soft-deleted already, and GET /tasks/:id for that id then answers 404;
    for an id that is not in the store DELETE answers 404 and writes
    nothing. *)
Theorem route_delete_then_get (env : Env) (id : string) (w : World) :
  (db_SELECT_task_by_id id w = None ->
   route_delete_task env id w
   = (w, Ok (mkResponseOf 404 (JsonError "Task not found"))))
  /\ (forall r,
        db_SELECT_task_by_id id w = Some r ->
        existsb (fun e => q_id e =? uuid env (uuid_n w))%string (sync_queue w) = false ->
        exists w',
          route_delete_task env id w = (w', Ok (mkResponseOf 204 NoBody))
          /\ route_get_task id w'
             = (w', Ok (mkResponseOf 404 (JsonError "Task not found")))).
Proof.
  split.
  - intros Hnone. unfold route_delete_task, deleteTask, getTaskById.
    run_monad. rewrite Hnone. reflexivity.
  - intros r Hfind Hfresh.
    eexists. split.
    + unfold route_delete_task, try_catch, bind, respond, ret.
      rewrite (@deleteTask_found env id w r Hfind Hfresh). reflexivity.
    + unfold route_get_task, try_catch, bind, respond, ret, getTask, gets,
        db_SELECT_active_task.
      cbn [tasks]. rewrite find_none_of; [reflexivity|].
      intros x Hx. eapply soft_deleted_rows, Hx.
Qed.

Lemma route_delete_then_get_witness :
  route_delete_task Scenario.client_env "t9" Fixture.two_records
  = (Fixture.two_records, Ok (mkResponseOf 404 (JsonError "Task not found")))
  /\ exists w',
       route_delete_task Scenario.client_env "t2" Fixture.two_records
       = (w', Ok (mkResponseOf 204 NoBody))
       /\ route_get_task "t2" w'
          = (w', Ok (mkResponseOf 404 (JsonError "Task not found"))).
Proof.
  split.
  - apply (proj1 (route_delete_then_get Scenario.client_env "t9" Fixture.two_records)).
    reflexivity.
  - apply (proj2 (route_delete_then_get Scenario.client_env "t2" Fixture.two_records)
             (mkRawTask "t2" "B" "b" 1 800 1100 1 synced None None));
      reflexivity.
Defined.

(* ================================================================== *)
(** ** The remote resolver: creates                                    *)
(* ================================================================== *)

(** X9. A create entry, and an update entry whose target the resolver does
    not find, both make the resolver call [createTask] with the entry's
    payload, under an id of the resolver's own; a create entry is not
    compared with anything, so this happens also when the client's id is
    known.  When the payload carries a title (and the two ids drawn are not
    taken) the answer is success with the drawn id as [server_id] and the
    new record as snapshot, the store has one record more, and, the drawn id
    differing from the client's, a lookup of the client's record id gives
    what it gave before.  When the payload carries no title the item is
    answered with error and no record and no Outbox entry is stored. *)
Theorem resolver_creates_under_its_own_id (env : Env) (item : SyncQueueItem)
  (w : World) (acc : list ProcessedItem) :
  q_operation item = OpCreate
  \/ (q_operation item = OpUpdate /\ db_SELECT_task_by_id (q_task_id item) w = None) ->
  (forall title,
     p_title (q_data item) = Some title ->
     existsb (fun r => r_id r =? uuid env (uuid_n w))%string (tasks w) = false ->
     existsb (fun e => q_id e =? uuid env (S (uuid_n w)))%string (sync_queue w) = false ->
     let sid := uuid env (uuid_n w) in
     let now := clock env (clock_n w) in
     let description := or_empty (p_description (q_data item)) in
     exists w',
       batch_item (taskService env) item (w, acc)
       = ((w', (acc ++ [mkProcessed (q_task_id item) sid StSuccess
                          (Some (mkTask sid title description false now now false
                                        pending None None)) None])%list), Ok tt)
       /\ tasks w'
          = (tasks w
             ++ [mkRawTask sid title description 0 now now 0 pending None None])%list
       /\ (sid <> q_task_id item ->
           db_SELECT_task_by_id (q_task_id item) w'
           = db_SELECT_task_by_id (q_task_id item) w))
  /\ (p_title (q_data item) = None ->
      exists w' message,
        batch_item (taskService env) item (w, acc)
        = ((w', (acc ++ [mkProcessed (q_task_id item) EmptyString StError None
                           (Some message)])%list), Ok tt)
        /\ tasks w' = tasks w
        /\ sync_queue w' = sync_queue w).
Proof.
  intros Hkind. split.
  - intros title Htitle Hfresh Hqfresh sid now description.
    pose proof (@createTask_ok env (q_data item) title w Htitle Hfresh Hqfresh) as Hrun.
    eexists. split; [|split].
    + unfold batch_item, batch_try, taskService, getTaskById, bind, gets, try_catch,
        lift, push_created, push, modify.
      cbn [fst snd svc_getTaskById svc_createTask].
      destruct Hkind as [Hop|[Hop Hnone]]; rewrite Hop.
      * cbn [fst snd]. rewrite Hrun. reflexivity.
      * rewrite Hnone. cbn [mapRowToTask fst snd]. rewrite Hrun. reflexivity.
    + reflexivity.
    + intros Hne. unfold db_SELECT_task_by_id. cbn [tasks].
      apply find_app_keep. simpl. apply String.eqb_neq, Hne.
  - intros Htitle.
    assert (Hrun : createTask env (q_data item) w
                   = (mkWorld (tasks w) (sync_queue w) (S (clock_n w)) (S (uuid_n w)),
                      Throw "SQLITE_CONSTRAINT: NOT NULL constraint failed: tasks.title")).
    { unfold createTask, new_Date, uuidv4, bind, throw. cbn [fst snd].
      rewrite Htitle. reflexivity. }
    eexists. eexists. split; [|split].
    + unfold batch_item, batch_try, taskService, getTaskById, bind, gets, try_catch,
        lift, push_created, push, modify, error_outcome.
      cbn [fst snd svc_getTaskById svc_createTask].
      destruct Hkind as [Hop|[Hop Hnone]]; rewrite Hop.
      * cbn [fst snd]. rewrite Hrun. reflexivity.
      * rewrite Hnone. cbn [mapRowToTask fst snd]. rewrite Hrun. reflexivity.
    + reflexivity.
    + reflexivity.
Qed.

Lemma resolver_creates_under_its_own_id_witness :
  (exists w',
     batch_item (taskService Scenario.server_env) Fixture.update_unknown_item
                (Scenario.empty_world, [])
     = ((w', [mkProcessed "c9" "s1" StSuccess
                (Some (mkTask "s1" "B" EmptyString false 5000 5000 false
                              pending None None)) None]), Ok tt)
     /\ tasks w' = [mkRawTask "s1" "B" EmptyString 0 5000 5000 0 pending None None]
     /\ ("s1" <> "c9" ->
         db_SELECT_task_by_id "c9" w' = db_SELECT_task_by_id "c9" Scenario.empty_world))
  /\ (exists w' message,
        batch_item (taskService Scenario.server_env) Fixture.update_without_title
                   (Scenario.world_live, [])
        = ((w', [mkProcessed "c9" EmptyString StError None (Some message)]), Ok tt)
        /\ tasks w' = tasks Scenario.world_live
        /\ sync_queue w' = sync_queue Scenario.world_live).
Proof.
  split.
  - apply (proj1 (@resolver_creates_under_its_own_id Scenario.server_env
                    Fixture.update_unknown_item Scenario.empty_world []
                    (or_intror (conj eq_refl eq_refl))) "B");
      reflexivity.
  - apply (proj2 (@resolver_creates_under_its_own_id Scenario.server_env
                    Fixture.update_without_title Scenario.world_live []
                    (or_intror (conj eq_refl eq_refl))));
      reflexivity.
Defined.

Lemma existsb_app_last (A : Type) (f : A -> bool) (l : list A) (x : A) :
  existsb f (l ++ [x]) = existsb f l || f x.
Proof. rewrite existsb_app. simpl. rewrite orb_false_r. reflexivity. Qed.

(** X10. The resolver's create is not idempotent: a create entry that is
    transmitted twice is answered with success twice, under two different
    server ids, and leaves two records with the same contents. *)
Theorem retransmitted_create_duplicates (env : Env) (item : SyncQueueItem)
  (title : string) (w : World) :
  q_operation item = OpCreate ->
  p_title (q_data item) = Some title ->
  let n := uuid_n w in
  existsb (fun r => r_id r =? uuid env n)%string (tasks w) = false ->
  existsb (fun r => r_id r =? uuid env (S (S n)))%string (tasks w) = false ->
  uuid env n <> uuid env (S (S n)) ->
  existsb (fun e => q_id e =? uuid env (S n))%string (sync_queue w) = false ->
  existsb (fun e => q_id e =? uuid env (S (S (S n))))%string (sync_queue w) = false ->
  uuid env (S n) <> uuid env (S (S (S n))) ->
  let out := batch_handler (taskService env) (mkRequest [item; item] 0) w in
  map (fun p => (client_id p, server_id p, status p)) (processed_items (snd out))
  = [(q_task_id item, uuid env n, StSuccess);
     (q_task_id item, uuid env (S (S n)), StSuccess)]
  /\ map (fun r => (r_id r, r_title r, r_description r)) (tasks (fst out))
     = (map (fun r => (r_id r, r_title r, r_description r)) (tasks w)
        ++ [(uuid env n, title, or_empty (p_description (q_data item)));
            (uuid env (S (S n)), title, or_empty (p_description (q_data item)))])%list.
Proof.
  intros Hop Htitle n Hf1 Hf2 Hne Hq1 Hq2 Hqne out.
  pose proof (@createTask_ok env (q_data item) title w Htitle Hf1 Hq1) as Hrun1.
  match type of Hrun1 with _ = (?x, _) => set (w1 := x) in * end.
  assert (Hf2' : existsb (fun r => r_id r =? uuid env (uuid_n w1))%string (tasks w1)
                 = false).
  { unfold w1. cbn [tasks uuid_n]. rewrite existsb_app_last. fold n.
    rewrite Hf2. simpl. apply String.eqb_neq, Hne. }
  assert (Hq2' : existsb (fun e => q_id e =? uuid env (S (uuid_n w1)))%string
                         (sync_queue w1) = false).
  { unfold w1. cbn [sync_queue uuid_n]. rewrite existsb_app_last. fold n.
    rewrite Hq2. simpl. apply String.eqb_neq, Hqne. }
  pose proof (@createTask_ok env (q_data item) title w1 Htitle Hf2' Hq2') as Hrun2.
  unfold out, batch_handler. cbn [items batch_loop].
  unfold batch_item, batch_try, taskService, getTaskById, bind, gets, try_catch,
    lift, push_created, push, modify.
  cbn [fst snd svc_getTaskById svc_createTask]. rewrite Hop.
  cbn [fst snd]. rewrite Hrun1. cbn [fst snd]. rewrite Hrun2. cbn [fst snd].
  split.
  - reflexivity.
  - unfold w1. cbn [tasks clock_n uuid_n]. rewrite <- !app_assoc, !map_app.
    reflexivity.
Qed.

Lemma retransmitted_create_duplicates_witness :
  let out := batch_handler (taskService Scenario.server_env)
               (mkRequest [Fixture.create_item; Fixture.create_item] 0)
               Scenario.empty_world in
  map (fun p => (client_id p, server_id p, status p)) (processed_items (snd out))
  = [("c9", "s1", StSuccess); ("c9", "s3", StSuccess)]
  /\ map (fun r => (r_id r, r_title r, r_description r)) (tasks (fst out))
     = [("s1", "A", EmptyString); ("s3", "A", EmptyString)].
Proof.
  apply (@retransmitted_create_duplicates Scenario.server_env Fixture.create_item
           "A" Scenario.empty_world);
    try reflexivity; discriminate.
Defined.

(* ================================================================== *)
(** ** The sync run beyond the claims                                  *)
(* ================================================================== *)

Lemma slices_full_but_last (batchSize : nat) (fuel : nat) (l : list SyncQueueItem)
  (pre post : list (list SyncQueueItem)) (b : list SyncQueueItem) :
  slices fuel batchSize l = (pre ++ b :: post)%list -> post <> [] ->
  List.length b = batchSize.
Proof.
  revert l pre. induction fuel as [|fuel IH]; intros l pre Hcut Hpost.
  - destruct l; destruct pre; discriminate.
  - destruct l as [|x l]; [destruct pre; discriminate|].
    change (slices (S fuel) batchSize (x :: l))
      with (firstn batchSize (x :: l)
            :: slices fuel batchSize (skipn batchSize (x :: l))) in Hcut.
    destruct pre as [|p pre]; simpl in Hcut; injection Hcut as Hb Hrest.
    + subst b. rewrite length_firstn. apply Nat.min_l.
      destruct (Nat.le_gt_cases batchSize (List.length (x :: l))) as [Hle|Hgt];
        [exact Hle|].
      exfalso. apply Hpost. rewrite <- Hrest.
      rewrite skipn_all2 by lia. destruct fuel; reflexivity.
    + eapply IH; eassumption.
Qed.

(** X11. With a positive batch size the batches are the loaded entries cut
    in order: put end to end they give the list back, no batch is empty,
    none is longer than the batch size, and every batch but the last has
    exactly the batch size. *)
Theorem make_batches_bounds (batchSize : nat) (l : list SyncQueueItem) :
  (0 < batchSize)%nat ->
  List.concat (make_batches batchSize l) = l
  /\ Forall (fun b => (0 < List.length b <= batchSize)%nat) (make_batches batchSize l)
  /\ (forall pre b post,
        make_batches batchSize l = (pre ++ b :: post)%list -> post <> [] ->
        List.length b = batchSize).
Proof.
  intros Hpos. split; [apply make_batches_concat, Hpos|]. split.
  - apply Forall_forall. intros b Hb.
    pose proof (make_batches_nonempty l Hpos Hb) as Hne.
    split; [destruct b; [congruence|simpl; lia]|].
    unfold make_batches in Hb. revert Hb. generalize (List.length l) at 1.
    intros fuel. revert l. induction fuel as [|fuel IH]; intros l Hb.
    + destruct l; contradiction.
    + destruct l as [|x l]; [contradiction|].
      change (slices (S fuel) batchSize (x :: l))
        with (firstn batchSize (x :: l)
              :: slices fuel batchSize (skipn batchSize (x :: l))) in Hb.
      destruct Hb as [<-|Hb]; [|eapply IH, Hb].
      rewrite length_firstn. apply Nat.le_min_l.
  - intros pre b post Hcut Hpost. eapply slices_full_but_last; eassumption.
Qed.

Lemma make_batches_bounds_witness :
  let l := [Scenario.entry_a; Scenario.entry_b; Scenario.entry_c] in
  List.concat (make_batches 2 l) = l
  /\ Forall (fun b => (0 < List.length b <= 2)%nat) (make_batches 2 l)
  /\ (forall pre b post,
        make_batches 2 l = (pre ++ b :: post)%list -> post <> [] ->
        List.length b = 2%nat).
Proof.
  apply (@make_batches_bounds 2 [Scenario.entry_a; Scenario.entry_b; Scenario.entry_c]).
  lia.
Defined.

Section MoreOfTheRun.

Variable R : Type.
Variable transport : R -> BatchSyncRequest -> R * (string + BatchSyncResponse).
Variable env : Env.

Lemma getSyncQueueItems_empty (w : World) :
  getSyncQueueItems w = [] <-> sync_queue w = [].
Proof.
  split; intros H.
  - apply Permutation_nil. rewrite <- H. apply getSyncQueueItems_perm.
  - unfold getSyncQueueItems. rewrite H. reflexivity.
Qed.

(** X12. POST /sync starts no run while the health endpoint does not answer:
    the answer is 503, no batch is handed to the transport, and the Outbox
    and the records are left as they were, retry counts included.  When the
    endpoint answers, the route answers 200 with the result of the run; with
    an empty Outbox that result is success with zero counts, nothing is
    transmitted and nothing is written, for any batch size. *)
Theorem route_post_sync_gate (probe : R -> R * bool) (batchSize : nat)
  (w : World) (r r1 : R) :
  (probe r = (r1, false) ->
   route_post_sync transport probe env batchSize w r
   = ((w, r1, []),
      mkResponseOf 503 (JsonError "Service unavailable. No internet connection.")))
  /\ (probe r = (r1, true) ->
      snd (route_post_sync transport probe env batchSize w r)
      = mkResponseOf 200
          (JsonSyncResult (results (sync transport env batchSize w r1)))
      /\ (sync_queue w = [] ->
          route_post_sync transport probe env batchSize w r
          = ((w, r1, []), mkResponseOf 200 (JsonSyncResult (mkResult true 0 0 []))))).
Proof.
  unfold route_post_sync, checkConnectivity. split; intros Hprobe; rewrite Hprobe.
  - reflexivity.
  - split; [reflexivity|]. intros Hempty.
    apply getSyncQueueItems_empty in Hempty.
    unfold sync. rewrite Hempty. reflexivity.
Qed.

Lemma sync_failed_errors (message : string) (its : list SyncQueueItem)
  (w : World) (res : SyncResult) :
  let out := sync_failed env message its w res in
  map (fun e => (se_task_id e, se_operation e, se_error e)) (errors (snd out))
  = (map (fun e => (se_task_id e, se_operation e, se_error e)) (errors res)
     ++ map (fun it => (q_task_id it, q_operation it, message)) its)%list
  /\ synced_items (snd out) = synced_items res
  /\ success (snd out) = success res.
Proof.
  revert w res. induction its as [|item its IH]; intros w res; simpl.
  - rewrite app_nil_r. auto.
  - destruct (IH (tick_clock (handleSyncError item message w))
                 (push_error res
                    (mkSyncError (q_task_id item) (q_operation item) message
                       (clock env (clock_n (handleSyncError item message w))))))
      as (He & Hs & Hok).
    cbv zeta in *. rewrite He, Hs, Hok. simpl.
    rewrite map_app, <- app_assoc. auto.
Qed.

(** X13. A run during which no batch is delivered: every entry of the Outbox
    is counted as failed and none as synced, no entry leaves the Outbox, and
    the Sync Result lists one error per entry, in the order of [created_at],
    with the entry's record id and operation. *)
Theorem sync_with_network_down (batchSize : nat) (w : World) (r : R) :
  (0 < batchSize)%nat ->
  (forall r0 req, exists r1 message, transport r0 req = (r1, inl message)) ->
  let s := sync transport env batchSize w r in
  map q_id (sync_queue (local s)) = map q_id (sync_queue w)
  /\ synced_items (results s) = 0%nat
  /\ failed_items (results s) = List.length (sync_queue w)
  /\ success (results s) = (List.length (sync_queue w) =? 0)%nat
  /\ map (fun e => (se_task_id e, se_operation e)) (errors (results s))
     = map (fun it => (q_task_id it, q_operation it)) (getSyncQueueItems w).
Proof.
  intros Hpos Hdown s.
  assert (Hloop : forall batches s0,
             let s1 := sync_batches transport env batches s0 in
             map q_id (sync_queue (local s1)) = map q_id (sync_queue (local s0))
             /\ synced_items (results s1) = synced_items (results s0)
             /\ failed_items (results s1)
                = (failed_items (results s0) + List.length (List.concat batches))%nat
             /\ map (fun e => (se_task_id e, se_operation e)) (errors (results s1))
                = (map (fun e => (se_task_id e, se_operation e)) (errors (results s0))
                   ++ map (fun it => (q_task_id it, q_operation it))
                          (List.concat batches))%list).
  { unfold sync_batches.
    induction batches as [|b batches IH]; intros s0; simpl.
    - rewrite Nat.add_0_r, app_nil_r. auto.
    - destruct (Hdown (remote s0)
                  (mkRequest b (clock env (clock_n (local s0)))))
        as (r1 & message & Hfail).
      pose proof (@sync_batch_not_delivered R transport env s0 b r1 message Hfail)
        as Hstep.
      cbv zeta in Hstep.
      destruct (IH (sync_batch transport env s0 b)) as (Hq & Hs & Hf & He).
      cbv zeta in *. rewrite Hq, Hs, Hf, He, Hstep. cbn [local results].
      destruct (sync_failed_errors message b (tick_clock (local s0))
                  (mkResult false (synced_items (results s0))
                     (failed_items (results s0) + List.length b)%nat
                     (errors (results s0)))) as (Herr & Hsy & _).
      cbv zeta in Herr, Hsy.
      rewrite sync_failed_ids, sync_failed_failed, Hsy. cbn [failed_items synced_items].
      rewrite length_app, map_app. simpl.
      split; [reflexivity|]. split; [reflexivity|]. split; [lia|].
      rewrite app_assoc. f_equal.
      apply (f_equal (map (fun x => (fst (fst x), snd (fst x))))) in Herr.
      rewrite !map_map, map_app, !map_map in Herr. simpl in Herr.
      cbn [errors] in Herr. exact Herr. }
  assert (Hlen : List.length (getSyncQueueItems w) = List.length (sync_queue w))
    by apply Permutation_length, getSyncQueueItems_perm.
  unfold s, sync. destruct (getSyncQueueItems w) as [|x l] eqn:E.
  - apply getSyncQueueItems_empty in E. simpl. rewrite !E. simpl. auto.
  - destruct (Hloop (make_batches batchSize (x :: l))
                (mkSyncState w r (mkResult true 0 0 []) []))
      as (Hq & Hs & Hf & He).
    cbv zeta in *. rewrite make_batches_concat in Hf, He by exact Hpos.
    cbn [local results success synced_items failed_items errors] in *.
    rewrite Hq, Hs, Hf, He, <- Hlen. simpl. auto.
Qed.

End MoreOfTheRun.

Lemma sync_with_network_down_witness :
  let s := sync Scenario.unreachable Scenario.client_env 2 Scenario.three_entries tt in
  map q_id (sync_queue (local s)) = ["qc"; "qa"; "qb"]
  /\ synced_items (results s) = 0%nat
  /\ failed_items (results s) = 3%nat
  /\ success (results s) = false
  /\ map (fun e => (se_task_id e, se_operation e)) (errors (results s))
     = [("a", OpCreate); ("b", OpCreate); ("c", OpCreate)].
Proof.
  apply (@sync_with_network_down unit Scenario.unreachable Scenario.client_env 2%nat
           Scenario.three_entries tt).
  - lia.
  - intros r0 req. exists r0, "Network Error". reflexivity.
Defined.

Lemma route_post_sync_gate_witness :
  route_post_sync Scenario.unreachable Fixture.offline Scenario.client_env 2
                  Scenario.three_entries tt
  = ((Scenario.three_entries, tt, []),
     mkResponseOf 503 (JsonError "Service unavailable. No internet connection."))
  /\ route_post_sync Scenario.unreachable Fixture.online Scenario.client_env 2
                     Fixture.two_records tt
     = ((Fixture.two_records, tt, []),
        mkResponseOf 200 (JsonSyncResult (mkResult true 0 0 []))).
Proof.
  split.
  - apply (proj1 (@route_post_sync_gate unit Scenario.unreachable Scenario.client_env
                    Fixture.offline 2%nat Scenario.three_entries tt tt)).
    reflexivity.
  - apply (proj2 (@route_post_sync_gate unit Scenario.unreachable Scenario.client_env
                    Fixture.online 2%nat Fixture.two_records tt tt));
      reflexivity.
Defined.

Section WhatTheRunReads.

Variable R : Type.
Variable transport : R -> BatchSyncRequest -> R * (string + BatchSyncResponse).
Variable env : Env.




Lemma map_key_update_where_id (A : Type) (key : RawTask -> A) (id : string)
  (f : RawTask -> RawTask) (ts : list RawTask) :
  (forall r, key (f r) = key r) ->
  map key (update_where_id id f ts) = map key ts.
Proof.
  intros Hf. unfold update_where_id. rewrite map_map. apply map_ext.
  intros r. destruct (r_id r =? id)%string; auto.
Qed.

Lemma handleSyncError_stable (item : SyncQueueItem) (message : string) (w : World) :
  map payload (sync_queue (handleSyncError item message w))
  = map payload (sync_queue w)
  /\ map record_identity (tasks (handleSyncError item message w))
     = map record_identity (tasks w).
Proof.
  split.
  - rewrite handleSyncError_queue. unfold set_retry. rewrite map_map.
    apply map_ext. intros e. destruct (q_id e =? q_id item)%string; reflexivity.
  - rewrite handleSyncError_tasks.
    destruct (maxRetries <=? q_retry_count item + 1); [|reflexivity].
    apply map_key_update_where_id. reflexivity.
Qed.

Lemma updateSyncStatus_stable (qid : string) (st : SyncStatus)
  (serverData : option Task) (w : World) :
  incl (map payload (sync_queue (updateSyncStatus env qid st serverData w)))
       (map payload (sync_queue w))
  /\ map record_identity (tasks (updateSyncStatus env qid st serverData w))
     = map record_identity (tasks w).
Proof.
  unfold updateSyncStatus.
  destruct st; try (split; [apply incl_refl|reflexivity]).
  destruct (find _ (sync_queue w)); [|split; [apply incl_refl|reflexivity]].
  cbn [sync_queue tasks with_queue with_tasks tick_clock]. split.
  - intros x Hx. apply in_map_iff in Hx. destruct Hx as (e & <- & He).
    apply filter_In in He. apply in_map, He.
  - apply map_key_update_where_id. intros r. destruct serverData; reflexivity.
Qed.

Lemma sync_outcomes_stable (batch : list SyncQueueItem) (ps : list ProcessedItem)
  (w : World) (res : SyncResult) :
  let w' := fst (fst (sync_outcomes env batch ps w res)) in
  incl (map payload (sync_queue w')) (map payload (sync_queue w))
  /\ map record_identity (tasks w') = map record_identity (tasks w).
Proof.
  revert w res. induction ps as [|p ps IH]; intros w res; simpl.
  - split; [apply incl_refl|reflexivity].
  - destruct (is_synced_status (status p)), (find _ batch) as [it|];
      simpl; try (split; [apply incl_refl|reflexivity]).
    + destruct (IH (updateSyncStatus env (q_id it) synced (resolved_data p) w)
                   (incr_synced res)) as [Hq Ht].
      destruct (updateSyncStatus_stable (q_id it) synced (resolved_data p) w)
        as [Hq' Ht'].
      cbv zeta in *. split; [eapply incl_tran; eassumption|congruence].
    + match goal with
      | |- context [sync_outcomes env batch ps ?w1 ?res1] =>
          destruct (IH w1 res1) as [Hq Ht]
      end.
      destruct (handleSyncError_stable it (or_empty (error_text p)) w) as [Hq' Ht'].
      cbv zeta in *. cbn [sync_queue tasks tick_clock] in *.
      split; [rewrite <- Hq'; exact Hq|congruence].
Qed.

Lemma sync_failed_stable (message : string) (its : list SyncQueueItem)
  (w : World) (res : SyncResult) :
  let w' := fst (sync_failed env message its w res) in
  map payload (sync_queue w') = map payload (sync_queue w)
  /\ map record_identity (tasks w') = map record_identity (tasks w).
Proof.
  revert w res. induction its as [|item its IH]; intros w res; simpl;
    [split; reflexivity|].
  match goal with
  | |- context [sync_failed env message its ?w1 ?res1] =>
      destruct (IH w1 res1) as [Hq Ht]
  end.
  destruct (handleSyncError_stable item message w) as [Hq' Ht'].
  cbv zeta in *. cbn [sync_queue tasks tick_clock] in *.
  split; congruence.
Qed.

Lemma sync_batch_stable (s : SyncState R) (batch : list SyncQueueItem) :
  let s' := sync_batch transport env s batch in
  incl (map payload (sync_queue (local s'))) (map payload (sync_queue (local s)))
  /\ map record_identity (tasks (local s')) = map record_identity (tasks (local s)).
Proof.
  unfold sync_batch, processBatch.
  destruct (transport (remote s) _) as [r' [message|response]]; cbn [local results].
  - match goal with
    | |- context [sync_failed env message batch ?w2 ?res3] =>
        destruct (sync_failed_stable message batch w2 res3) as [Hq Ht];
        destruct (sync_failed env message batch w2 res3) as [w4 res4]
    end.
    cbv zeta in *. cbn [fst local sync_queue tasks tick_clock] in *.
    split; [rewrite Hq; apply incl_refl|exact Ht].
  - destruct (sync_outcomes_stable batch (processed_items response)
                (tick_clock (local s)) (results s)) as [Hq Ht].
    destruct (sync_outcomes env batch (processed_items response)
                (tick_clock (local s)) (results s)) as [[w2 res2] [message|]].
    + match goal with
      | |- context [sync_failed env message batch w2 ?res3] =>
          destruct (sync_failed_stable message batch w2 res3) as [Hq' Ht'];
          destruct (sync_failed env message batch w2 res3) as [w4 res4]
      end.
      cbv zeta in *. cbn [fst local sync_queue tasks tick_clock] in *.
      split; [rewrite Hq'; exact Hq|congruence].
    + cbv zeta in *. cbn [fst local sync_queue tasks tick_clock] in *.
      split; assumption.
Qed.

(** X15. A sync run only removes Outbox entries and updates their retry
    bookkeeping: every entry left after the run is an entry from before the
    run with the same id, record id, operation, payload and [created_at];
    and it neither adds nor removes a record nor changes a record's id,
    [created_at] or soft-delete flag. *)
Theorem sync_keeps_payloads_and_identities (batchSize : nat) (w : World) (r : R) :
  let s := sync transport env batchSize w r in
  incl (map payload (sync_queue (local s))) (map payload (sync_queue w))
  /\ map record_identity (tasks (local s)) = map record_identity (tasks w).
Proof.
  unfold sync. destruct (getSyncQueueItems w) as [|x l].
  - split; [apply incl_refl|reflexivity].
  - cbv zeta. cbn [local].
    generalize (make_batches batchSize (x :: l)). intros batches.
    assert (Hloop : forall s0,
               let s1 := sync_batches transport env batches s0 in
               incl (map payload (sync_queue (local s1)))
                    (map payload (sync_queue (local s0)))
               /\ map record_identity (tasks (local s1))
                  = map record_identity (tasks (local s0))).
    { unfold sync_batches. induction batches as [|b batches IH]; intros s0; simpl.
      - split; [apply incl_refl|reflexivity].
      - destruct (IH (sync_batch transport env s0 b)) as [Hq Ht].
        destruct (sync_batch_stable s0 b) as [Hq' Ht'].
        cbv zeta in *. split; [eapply incl_tran; eassumption|congruence]. }
    apply (Hloop (mkSyncState w r (mkResult true 0 0 []) [])).
Qed.

End WhatTheRunReads.

(* ================================================================== *)
(** ** The sync run: batches whose entries are of different records    *)
(* ================================================================== *)

Lemma find_by_task_id (batch : list SyncQueueItem) (it : SyncQueueItem) :
  NoDup (map q_task_id batch) -> In it batch ->
  find (fun item => q_task_id item =? q_task_id it)%string batch = Some it.
Proof.
  induction batch as [|a batch IH]; simpl; intros Hnd Hin; [contradiction|].
  inversion Hnd as [|? ? Hnotin Hnd']; subst.
  destruct Hin as [->|Hin].
  - rewrite String.eqb_refl. reflexivity.
  - destruct (q_task_id a =? q_task_id it)%string eqn:E.
    + exfalso. apply Hnotin. apply String.eqb_eq in E. rewrite E.
      apply in_map, Hin.
    + apply IH; assumption.
Qed.

Lemma filter_all (A : Type) (f : A -> bool) (l : list A) :
  (forall x, In x l -> f x = true) -> filter f l = l.
Proof.
  induction l as [|a l IH]; simpl; intros H; [reflexivity|].
  rewrite (H a (or_introl eq_refl)). f_equal. apply IH.
  intros x Hx. apply H. right. exact Hx.
Qed.

Lemma NoDup_map_filter (A B : Type) (g : A -> B) (f : A -> bool) (l : list A) :
  NoDup (map g l) -> NoDup (map g (filter f l)).
Proof.
  induction l as [|a l IH]; simpl; intros Hnd; [constructor|].
  inversion Hnd as [|? ? Hnotin Hnd']; subst.
  destruct (f a); simpl; [|apply IH, Hnd'].
  constructor; [|apply IH, Hnd'].
  intros Hin. apply Hnotin. apply in_map_iff in Hin.
  destruct Hin as (x & Hx & Hxin). apply filter_In in Hxin.
  rewrite <- Hx. apply in_map, Hxin.
Qed.

(** Whether it finds the entry or not, [updateSyncStatus] leaves the Outbox
    without any row of that id. *)
Lemma updateSyncStatus_queue (env : Env) (qid : string) (serverData : option Task)
  (w : World) :
  sync_queue (updateSyncStatus env qid synced serverData w)
  = filter (fun r => negb (q_id r =? qid)%string) (sync_queue w).
Proof.
  unfold updateSyncStatus.
  destruct (find (fun r => q_id r =? qid)%string (sync_queue w)) eqn:E.
  - reflexivity.
  - symmetry. apply filter_all. intros x Hx.
    rewrite (find_none _ _ E x Hx). reflexivity.
Qed.

Lemma updateSyncStatus_tasks (env : Env) (qid : string) (serverData : option Task)
  (w : World) (it : SyncQueueItem) :
  find (fun r => q_id r =? qid)%string (sync_queue w) = Some it ->
  tasks (updateSyncStatus env qid synced serverData w)
  = update_where_id (q_task_id it)
      (apply_set (updateFields (clock env (clock_n w)) serverData)) (tasks w).
Proof.
  intros Hfind. unfold updateSyncStatus. rewrite Hfind. reflexivity.
Qed.

Lemma updateSyncStatus_keeps_synced (env : Env) (qid : string)
  (serverData : option Task) (w : World) (id : string) :
  record_synced id w ->
  record_synced id (updateSyncStatus env qid synced serverData w).
Proof.
  intros Hs. unfold updateSyncStatus.
  destruct (find _ (sync_queue w)) as [it|]; [|exact Hs].
  intros t Hin Hid. cbn [tasks with_queue with_tasks tick_clock] in Hin.
  unfold update_where_id in Hin. apply in_map_iff in Hin.
  destruct Hin as (x & Hx & Hxin).
  destruct (r_id x =? q_task_id it)%string.
  - subst t. destruct serverData; reflexivity.
  - subst t. apply Hs; assumption.
Qed.

Lemma updateSyncStatus_marks (env : Env) (qid : string)
  (serverData : option Task) (w : World) (it : SyncQueueItem) :
  find (fun r => q_id r =? qid)%string (sync_queue w) = Some it ->
  record_synced (q_task_id it) (updateSyncStatus env qid synced serverData w).
Proof.
  intros Hfind t Hin Hid.
  rewrite (updateSyncStatus_tasks env qid serverData w Hfind) in Hin.
  apply update_where_id_hit in Hin; [|intros r; destruct serverData; reflexivity|exact Hid].
  destruct Hin as (r & _ & ->). destruct serverData; reflexivity.
Qed.

Lemma find_unique_entry (q : list SyncQueueItem) (it : SyncQueueItem) :
  NoDup (map q_id q) -> In it q ->
  find (fun r => q_id r =? q_id it)%string q = Some it.
Proof.
  intros Hnd Hin.
  destruct (find (fun r => q_id r =? q_id it)%string q) as [x|] eqn:E.
  - apply find_some in E. destruct E as [Hx Hid]. apply String.eqb_eq in Hid.
    f_equal. apply (unique_by_id q); assumption.
  - pose proof (find_none _ _ E it Hin) as Hf. simpl in Hf.
    rewrite String.eqb_refl in Hf. discriminate.
Qed.

Section RecordsApart.

Variable R : Type.
Variable transport : R -> BatchSyncRequest -> R * (string + BatchSyncResponse).
Variable env : Env.

(** The outcomes of a batch whose entries are of different records, each
    answered with success or conflict. *)
Lemma sync_outcomes_clears (batch its : list SyncQueueItem)
  (ps : list ProcessedItem) (w : World) (res : SyncResult) :
  (forall it, In it its ->
     find (fun item => q_task_id item =? q_task_id it)%string batch = Some it) ->
  NoDup (map q_task_id its) ->
  NoDup (map q_id (sync_queue w)) ->
  (forall it, In it its -> In it (sync_queue w)) ->
  map client_id ps = map q_task_id its ->
  Forall (fun p => is_synced_status (status p) = true) ps ->
  exists w',
    sync_outcomes env batch ps w res
    = (w', mkResult (success res) (synced_items res + List.length its)%nat
                    (failed_items res) (errors res), None)
    /\ (forall e, In e (sync_queue w')
                  <-> In e (sync_queue w) /\ ~ In (q_id e) (map q_id its))
    /\ NoDup (map q_id (sync_queue w'))
    /\ (forall id, record_synced id w -> record_synced id w')
    /\ (forall it, In it its -> record_synced (q_task_id it) w').
Proof.
  revert ps w res.
  induction its as [|it0 its IH]; intros ps w res Hfind Hnt Hnd Hin Hids Hall.
  - destruct ps; [|discriminate]. exists w. simpl.
    split; [destruct res; simpl; rewrite Nat.add_0_r; reflexivity|].
    split; [intros e; split; [intros H; split; [exact H|intros []]
                             |intros [H _]; exact H]|].
    split; [exact Hnd|]. split; [auto|contradiction].
  - destruct ps as [|p ps]; [discriminate|].
    simpl in Hids. injection Hids as Hid0 Hids.
    inversion Hall as [|? ? Hp Hall']; subst.
    inversion Hnt as [|? ? Hnotin Hnt']; subst.
    set (w1 := updateSyncStatus env (q_id it0) synced (resolved_data p) w).
    assert (Hentry : find (fun r => q_id r =? q_id it0)%string (sync_queue w) = Some it0).
    { apply find_unique_entry; [exact Hnd|apply Hin; left; reflexivity]. }
    assert (Hq1 : forall e, In e (sync_queue w1)
                            <-> In e (sync_queue w) /\ q_id e <> q_id it0).
    { intros e. unfold w1. rewrite updateSyncStatus_queue, filter_In.
      rewrite negb_true_iff, String.eqb_neq. tauto. }
    assert (Hnd1 : NoDup (map q_id (sync_queue w1))).
    { unfold w1. rewrite updateSyncStatus_queue. apply NoDup_map_filter, Hnd. }
    assert (Hin1 : forall it, In it its -> In it (sync_queue w1)).
    { intros it Hit. apply Hq1. split; [apply Hin; right; exact Hit|].
      intros Heq.
      assert (it = it0).
      { apply (unique_by_id (sync_queue w)); auto.
        - apply Hin. right. exact Hit.
        - apply Hin. left. reflexivity. }
      subst it. apply Hnotin. apply in_map, Hit. }
    destruct (IH ps w1 (incr_synced res)) as (w' & Hrun & Hq & Hnd' & Hkeep & Hmark);
      try assumption.
    { intros it Hit. apply Hfind. right. exact Hit. }
    exists w'. split; [|split; [|split; [|split]]].
    + simpl. rewrite Hp, Hid0, (Hfind it0 (or_introl eq_refl)).
      fold w1. rewrite Hrun. simpl. rewrite Nat.add_succ_r. reflexivity.
    + intros e. rewrite Hq, Hq1. simpl. intuition congruence.
    + exact Hnd'.
    + intros id Hs. apply Hkeep. unfold w1. apply updateSyncStatus_keeps_synced, Hs.
    + intros it [<-|Hit]; [|apply Hmark, Hit].
      apply Hkeep. unfold w1. apply updateSyncStatus_marks, Hentry.
Qed.

(** The loop over such batches, each delivered and answered in full. *)
Lemma sync_batches_clear (batches : list (list SyncQueueItem)) (s0 : SyncState R) :
  (forall r0 req, exists r1 ps,
      transport r0 req = (r1, inr (mkResponse ps))
      /\ map client_id ps = map q_task_id (items req)
      /\ Forall (fun p => is_synced_status (status p) = true) ps) ->
  (forall b, In b batches -> NoDup (map q_task_id b)) ->
  NoDup (map q_id (sync_queue (local s0))) ->
  NoDup (map q_id (List.concat batches)) ->
  (forall it, In it (List.concat batches) -> In it (sync_queue (local s0))) ->
  let s1 := sync_batches transport env batches s0 in
  results s1
  = mkResult (success (results s0))
             (synced_items (results s0) + List.length (List.concat batches))%nat
             (failed_items (results s0)) (errors (results s0))
  /\ (forall e, In e (sync_queue (local s1))
                <-> In e (sync_queue (local s0))
                    /\ ~ In (q_id e) (map q_id (List.concat batches)))
  /\ (forall id, record_synced id (local s0) -> record_synced id (local s1))
  /\ (forall it, In it (List.concat batches) -> record_synced (q_task_id it) (local s1)).
Proof.
  intros Hanswer. unfold sync_batches. revert s0.
  induction batches as [|b batches IH]; intros s0 Hnt Hnd Hndb Hin; simpl.
  - split; [destruct (results s0); simpl; rewrite Nat.add_0_r; reflexivity|].
    split; [intros e; split; [intros H; split; [exact H|intros []]
                             |intros [H _]; exact H]|].
    split; [auto|contradiction].
  - destruct (Hanswer (remote s0) (mkRequest b (clock env (clock_n (local s0)))))
      as (r1 & ps & Htr & Hids & Hall).
    simpl in Hndb. rewrite map_app in Hndb.
    destruct (@sync_outcomes_clears b b ps (tick_clock (local s0)) (results s0))
      as (w' & Hrun & Hq & Hnd' & Hkeep & Hmark); auto.
    { intros it Hit. apply find_by_task_id; [apply Hnt; left; reflexivity|exact Hit]. }
    { apply Hnt. left. reflexivity. }
    { intros it Hit. apply Hin. simpl. apply in_or_app. left. exact Hit. }
    assert (Hstep : sync_batch transport env s0 b
                    = mkSyncState w' r1
                        (mkResult (success (results s0))
                           (synced_items (results s0) + List.length b)%nat
                           (failed_items (results s0)) (errors (results s0)))
                        (sent s0 ++ [b])%list).
    { unfold sync_batch, processBatch. rewrite Htr. cbn [local results processed_items].
      rewrite Hrun. reflexivity. }
    rewrite Hstep.
    match goal with
    | |- context [fold_left _ batches ?s] => destruct (IH s) as (Hres & Hq2 & Hkeep2 & Hmark2)
    end.
    { intros b0 Hb0. apply Hnt. right. exact Hb0. }
    { exact Hnd'. }
    { exact (NoDup_app_remove_l _ _ Hndb). }
    { cbn [local]. intros it Hit. apply Hq. split.
      - apply Hin. simpl. apply in_or_app. right. exact Hit.
      - intros Hbad. apply in_map_iff in Hbad. destruct Hbad as (x & Hx & Hxb).
        rewrite <- map_app in Hndb.
        apply (@ids_apart b (List.concat batches) x it Hndb Hxb Hit Hx). }
    cbn [local results success synced_items failed_items errors] in *.
    split; [|split; [|split]].
    + rewrite Hres. rewrite length_app. f_equal. lia.
    + intros e. rewrite Hq2, Hq. rewrite map_app, in_app_iff. simpl. tauto.
    + intros id Hs. apply Hkeep2, Hkeep, Hs.
    + intros it Hit. apply in_app_or in Hit. destruct Hit as [Hit|Hit].
      * apply Hkeep2, Hmark, Hit.
      * apply Hmark2, Hit.
Qed.

End RecordsApart.

(** X16. When no batch holds two entries of one record, entry ids are
    unique, and the remote side answers every transmitted item, in order,
    with success or conflict, one sync run empties the Outbox, counts every
    entry as synced and none as failed, reports success, and leaves every
    record that had an entry with [sync_status = synced]. *)
Theorem sync_clears_outbox_when_records_are_apart (R : Type)
  (transport : R -> BatchSyncRequest -> R * (string + BatchSyncResponse))
  (env : Env) (batchSize : nat) (w : World) (r : R) :
  (0 < batchSize)%nat ->
  NoDup (map q_id (sync_queue w)) ->
  (forall b, In b (make_batches batchSize (getSyncQueueItems w)) ->
             NoDup (map q_task_id b)) ->
  (forall r0 req, exists r1 ps,
      transport r0 req = (r1, inr (mkResponse ps))
      /\ map client_id ps = map q_task_id (items req)
      /\ Forall (fun p => is_synced_status (status p) = true) ps) ->
  let s := sync transport env batchSize w r in
  sync_queue (local s) = []
  /\ results s = mkResult true (List.length (sync_queue w)) 0 []
  /\ (forall e, In e (sync_queue w) -> record_synced (q_task_id e) (local s)).
Proof.
  intros Hpos Hnd Hapart Hanswer s.
  assert (Hnd' : NoDup (map q_id (getSyncQueueItems w))).
  { eapply Permutation_NoDup; [|exact Hnd].
    apply Permutation_map, Permutation_sym, getSyncQueueItems_perm. }
  assert (Hlen : List.length (getSyncQueueItems w) = List.length (sync_queue w))
    by apply Permutation_length, getSyncQueueItems_perm.
  unfold s, sync. destruct (getSyncQueueItems w) as [|x l] eqn:E.
  - apply getSyncQueueItems_empty in E. cbn [local results]. rewrite E.
    split; [reflexivity|]. split; [reflexivity|]. intros e [].
  - pose proof (make_batches_concat (x :: l) Hpos) as Hcat.
    destruct (@sync_batches_clear R transport env
                (make_batches batchSize (x :: l))
                (mkSyncState w r (mkResult true 0 0 []) []) Hanswer Hapart)
      as (Hres & Hq & _ & Hmark).
    + exact Hnd.
    + rewrite Hcat. exact Hnd'.
    + rewrite Hcat, <- E. intros it Hit. apply getSyncQueueItems_In, Hit.
    + rewrite Hcat in *. cbn [local results success synced_items failed_items errors] in *.
      cbv zeta. cbn [local results]. rewrite Hres. cbn [failed_items synced_items errors].
      split; [|split].
      * destruct (sync_queue (local _)) as [|e q] eqn:Eq; [reflexivity|].
        exfalso. destruct (proj1 (Hq e) (or_introl eq_refl)) as [Hin Hnot].
        apply Hnot, in_map. rewrite <- E. apply getSyncQueueItems_In, Hin.
      * rewrite <- Hlen. reflexivity.
      * intros e He. apply Hmark. rewrite <- E. apply getSyncQueueItems_In, He.
Qed.

Lemma sync_clears_outbox_when_records_are_apart_witness :
  let s := sync Fixture.all_success Scenario.client_env 2 Scenario.three_entries tt in
  sync_queue (local s) = []
  /\ results s = mkResult true 3 0 []
  /\ (forall e, In e (sync_queue Scenario.three_entries) ->
                record_synced (q_task_id e) (local s)).
Proof.
  apply (@sync_clears_outbox_when_records_are_apart unit Fixture.all_success
           Scenario.client_env 2%nat Scenario.three_entries tt).
  - lia.
  - no_dup_ids.
  - intros b Hb. vm_compute in Hb.
    destruct Hb as [<-|[<-|[]]]; no_dup_ids.
  - intros r0 req. exists r0. eexists. split; [reflexivity|].
    split; [rewrite map_map; reflexivity|].
    apply Forall_forall. intros p Hp. apply in_map_iff in Hp.
    destruct Hp as (it & <- & _). reflexivity.
Defined.

(** X17. A single queued entry answered with conflict and the server's
    snapshot: the run counts it as synced, not failed, removes it from the
    Outbox, and overwrites title, description, completed and [updated_at] of
    the entry's record with the snapshot's, sets [sync_status = synced] and
    [last_synced_at]; the record's id, [created_at] and soft-delete flag stay,
    and so do all other records. *)
Theorem conflict_adopts_the_server_snapshot (R : Type)
  (transport : R -> BatchSyncRequest -> R * (string + BatchSyncResponse))
  (env : Env) (batchSize : nat) (w : World) (r r1 : R)
  (e : SyncQueueItem) (sid : string) (d : Task) :
  (0 < batchSize)%nat ->
  sync_queue w = [e] ->
  transport r (mkRequest [e] (clock env (clock_n w)))
  = (r1, inr (mkResponse [mkProcessed (q_task_id e) sid StConflict (Some d) None])) ->
  let s := sync transport env batchSize w r in
  sync_queue (local s) = []
  /\ results s = mkResult true 1 0 []
  /\ tasks (local s)
     = map (fun t => if (r_id t =? q_task_id e)%string
                     then adopt (clock env (S (clock_n w))) d t else t)
           (tasks w).
Proof.
  intros Hpos Hq Htr s. unfold s, sync, getSyncQueueItems. rewrite Hq.
  cbn [order_by_created_at fold_left insert_by_created_at].
  assert (Hcut : make_batches batchSize [e] = [[e]]).
  { destruct batchSize; [lia|]. unfold make_batches. simpl.
    rewrite firstn_nil, skipn_nil. reflexivity. }
  rewrite Hcut. unfold sync_batches. cbn [fold_left].
  unfold sync_batch, processBatch. cbn [local remote]. rewrite Htr.
  cbn. rewrite String.eqb_refl. cbn. unfold updateSyncStatus. cbn. rewrite Hq.
  cbn. rewrite !String.eqb_refl. cbn.
  split; [reflexivity|]. split; [reflexivity|].
  apply map_ext. intros t.
  destruct (r_id t =? q_task_id e)%string; reflexivity.
Qed.

Lemma conflict_adopts_the_server_snapshot_witness :
  let w := mkWorld [Scenario.row_t1 0]
                   [Scenario.update_entry (Scenario.title_only "B")] 0 0 in
  let answer := [mkProcessed "t1" "t1" StConflict (Some Fixture.snapshot_t1) None] in
  let s := sync (Scenario.canned answer) Scenario.client_env 50 w tt in
  sync_queue (local s) = []
  /\ results s = mkResult true 1 0 []
  /\ tasks (local s)
     = [mkRawTask "t1" "S" "from the server" 1 900 7000 0 synced None (Some 1001)].
Proof.
  intros w answer.
  apply (@conflict_adopts_the_server_snapshot unit (Scenario.canned answer)
           Scenario.client_env 50%nat w tt tt
           (Scenario.update_entry (Scenario.title_only "B")) "t1"
           Fixture.snapshot_t1);
    [lia|reflexivity|reflexivity].
Defined.

(* ================================================================== *)
(** ** Client and resolver together                                    *)
(* ================================================================== *)

(** A run over an Outbox of one entry whose outcome is success or conflict. *)
Lemma sync_single_entry (R : Type)
  (transport : R -> BatchSyncRequest -> R * (string + BatchSyncResponse))
  (env : Env) (batchSize : nat) (w : World) (r r1 : R)
  (e : SyncQueueItem) (p : ProcessedItem) :
  (0 < batchSize)%nat ->
  sync_queue w = [e] ->
  transport r (mkRequest [e] (clock env (clock_n w))) = (r1, inr (mkResponse [p])) ->
  client_id p = q_task_id e ->
  is_synced_status (status p) = true ->
  sync transport env batchSize w r
  = mkSyncState
      (mkWorld (update_where_id (q_task_id e)
                  (apply_set (updateFields (clock env (S (clock_n w))) (resolved_data p)))
                  (tasks w))
               [] (S (S (clock_n w))) (uuid_n w))
      r1 (mkResult true 1 0 []) [[e]].
Proof.
  intros Hpos Hq Htr Hid Hst. unfold sync, getSyncQueueItems. rewrite Hq.
  cbn [order_by_created_at fold_left insert_by_created_at].
  assert (Hcut : make_batches batchSize [e] = [[e]]).
  { destruct batchSize; [lia|]. unfold make_batches. simpl.
    rewrite firstn_nil, skipn_nil. reflexivity. }
  rewrite Hcut. unfold sync_batches. cbn [fold_left].
  unfold sync_batch, processBatch. cbn [local remote]. rewrite Htr.
  cbn. rewrite Hst, Hid. cbn. rewrite String.eqb_refl. cbn.
  unfold updateSyncStatus. cbn. rewrite Hq. cbn. rewrite !String.eqb_refl. cbn.
  reflexivity.
Qed.

Lemma batch_item_create (env : Env) (item : SyncQueueItem) (title : string)
  (w : World) (acc : list ProcessedItem) :
  q_operation item = OpCreate ->
  p_title (q_data item) = Some title ->
  existsb (fun r => r_id r =? uuid env (uuid_n w))%string (tasks w) = false ->
  existsb (fun e => q_id e =? uuid env (S (uuid_n w)))%string (sync_queue w) = false ->
  batch_item (taskService env) item (w, acc)
  = ((fst (createTask env (q_data item) w),
      (acc ++ [mkProcessed (q_task_id item) (uuid env (uuid_n w)) StSuccess
                 (Some (mkTask (uuid env (uuid_n w)) title
                               (or_empty (p_description (q_data item))) false
                               (clock env (clock_n w)) (clock env (clock_n w))
                               false pending None None)) None])%list), Ok tt).
Proof.
  intros Hop Htitle Hfresh Hqfresh.
  pose proof (@createTask_ok env (q_data item) title w Htitle Hfresh Hqfresh) as Hrun.
  unfold batch_item, batch_try, taskService, getTaskById, bind, gets, try_catch,
    lift, push_created, push, modify.
  cbn [fst snd svc_getTaskById svc_createTask]. rewrite Hop.
  cbn [fst snd]. rewrite Hrun. reflexivity.
Qed.

(** X18. A local edit that names neither an id nor [updated_at], made on an
    empty Outbox and synced against the batch handler of the repository on a
    store that knows the record: the
    handler answers conflict and writes nothing, and the client overwrites
    title, description, completed and [updated_at] of its record with the
    server's, marks it synced and empties the Outbox.  The run reports one
    synced item; the edit is on neither side afterwards. *)
Theorem local_edit_is_overwritten_by_the_server (env renv : Env) (batchSize : nat)
  (id : string) (updates : TaskPatch) (w rw : World) (r : RawTask) (lt : Task) :
  (0 < batchSize)%nat ->
  sync_queue w = [] ->
  NoDup (map r_id (tasks w)) ->
  db_SELECT_task_by_id id w = Some r ->
  p_id updates = None ->
  p_updated_at updates = None ->
  mapRowToTask (db_SELECT_task_by_id id rw) = Some lt ->
  let w1 := fst (updateTask env id updates w) in
  let s := sync (remote_transport renv) env batchSize w1 rw in
  sync_queue (local s) = []
  /\ results s = mkResult true 1 0 []
  /\ remote s = rw
  /\ db_SELECT_task_by_id id (local s)
     = Some (adopt (clock env (S (S (S (clock_n w))))) lt
                   (apply_set (stamp updates (clock env (clock_n w))) r)).
Proof.
  intros Hpos Hq Hnd Hfind Hpid Hnone Hlt w1 s.
  assert (Hfresh : existsb (fun e => q_id e =? uuid env (uuid_n w))%string
                           (sync_queue w) = false) by (rewrite Hq; reflexivity).
  pose proof (@updateTask_found env id updates w r Hnd Hfind Hpid Hfresh) as Hrun.
  cbv zeta in Hrun.
  assert (Hw1 : w1 = mkWorld
                  (update_where_id id
                     (apply_set (stamp updates (clock env (clock_n w)))) (tasks w))
                  [mkItem (uuid env (uuid_n w)) id OpUpdate updates
                          (clock env (S (clock_n w))) 0 None]
                  (S (S (clock_n w))) (S (uuid_n w))).
  { unfold w1. rewrite Hrun, Hq. reflexivity. }
  clearbody w1. subst w1.
  set (e := mkItem (uuid env (uuid_n w)) id OpUpdate updates
                   (clock env (S (clock_n w))) 0 None) in *.
  assert (Htr : remote_transport renv rw
                  (mkRequest [e] (clock env (S (S (clock_n w)))))
                = (rw, inr (mkResponse [mkProcessed id id StConflict (Some lt) None]))).
  { assert (H1 : q_operation e = OpUpdate) by reflexivity.
    assert (H2 : mapRowToTask (db_SELECT_task_by_id (q_task_id e) rw) = Some lt)
      by exact Hlt.
    assert (H3 : date_gt (new_Date_of (p_updated_at (q_data e)))
                         (Some (t_updated_at lt)) = false)
      by (unfold e; cbn [q_data]; rewrite Hnone; reflexivity).
    unfold remote_transport, batch_handler. cbn [items batch_loop].
    rewrite (@update_server_wins renv e rw [] lt H1 H2 H3). reflexivity. }
  unfold s.
  erewrite sync_single_entry;
    [|exact Hpos|reflexivity|exact Htr|reflexivity|reflexivity].
  cbn [local results remote sync_queue tasks clock_n resolved_data q_task_id e].
  split; [reflexivity|]. split; [reflexivity|]. split; [reflexivity|].
  unfold db_SELECT_task_by_id in *. cbn [tasks].
  rewrite find_update_where_id by reflexivity.
  rewrite find_update_where_id by (intros x; simpl; rewrite Hpid; reflexivity).
  rewrite Hfind. reflexivity.
Qed.

Lemma local_edit_is_overwritten_by_the_server_witness :
  let w1 := fst (updateTask Scenario.client_env "t1" (Scenario.title_only "B")
                            Scenario.world_live) in
  let rw := mkWorld [mkRawTask "t1" "S" "server" 1 900 7000 0 synced None None]
                    [] 0 0 in
  let s := sync (remote_transport Scenario.server_env) Scenario.client_env 50 w1 rw in
  sync_queue (local s) = []
  /\ results s = mkResult true 1 0 []
  /\ remote s = rw
  /\ db_SELECT_task_by_id "t1" (local s)
     = Some (mkRawTask "t1" "S" "server" 1 900 7000 0 synced None (Some 1003)).
Proof.
  intros w1 rw.
  apply (@local_edit_is_overwritten_by_the_server Scenario.client_env
           Scenario.server_env 50%nat "t1" (Scenario.title_only "B")
           Scenario.world_live rw (Scenario.row_t1 0)
           (mkTask "t1" "S" "server" true 900 7000 false synced None None));
    try reflexivity.
  - lia.
  - no_dup_ids.
Defined.

(** X19. A record created locally and synced against the batch handler of
    the repository: the run empties the Outbox and marks the record synced,
    the server stores a copy under an id of its own, and the local record's
    [server_id] stays empty, because the snapshot the handler returns has
    none and the outcome's own [server_id] is not read; the local
    [updated_at] becomes the server's. *)
Theorem synced_create_gets_no_server_id (env renv : Env) (batchSize : nat)
  (taskData : TaskPatch) (title : string) (w rw : World) :
  (0 < batchSize)%nat ->
  sync_queue w = [] ->
  p_title taskData = Some title ->
  existsb (fun r => r_id r =? uuid env (uuid_n w))%string (tasks w) = false ->
  existsb (fun r => r_id r =? uuid renv (uuid_n rw))%string (tasks rw) = false ->
  existsb (fun e => q_id e =? uuid renv (S (uuid_n rw)))%string (sync_queue rw) = false ->
  let cid := uuid env (uuid_n w) in
  let sid := uuid renv (uuid_n rw) in
  let description := or_empty (p_description taskData) in
  let w1 := fst (createTask env taskData w) in
  let s := sync (remote_transport renv) env batchSize w1 rw in
  sync_queue (local s) = []
  /\ results s = mkResult true 1 0 []
  /\ db_SELECT_task_by_id cid (local s)
     = Some (mkRawTask cid title description 0 (clock env (clock_n w))
                       (clock renv (clock_n rw)) 0 synced None
                       (Some (clock env (S (S (S (clock_n w)))))))
  /\ tasks (remote s)
     = (tasks rw
        ++ [mkRawTask sid title description 0 (clock renv (clock_n rw))
                      (clock renv (clock_n rw)) 0 pending None None])%list.
Proof.
  intros Hpos Hq Htitle Hfresh Hrfresh Hrqfresh cid sid description w1 s.
  assert (Hqfresh : existsb (fun e => q_id e =? uuid env (S (uuid_n w)))%string
                            (sync_queue w) = false) by (rewrite Hq; reflexivity).
  pose proof (@createTask_ok env taskData title w Htitle Hfresh Hqfresh) as Hrun.
  set (e := mkItem (uuid env (S (uuid_n w))) cid OpCreate
                   (mkPatch None (Some title) (Some description)
                            None None None None None None None)
                   (clock env (S (clock_n w))) 0 None).
  assert (Hw1 : w1 = mkWorld
                  (tasks w ++ [mkRawTask cid title description 0
                                 (clock env (clock_n w)) (clock env (clock_n w)) 0
                                 pending None None])%list
                  [e] (S (S (clock_n w))) (S (S (uuid_n w)))).
  { unfold w1. rewrite Hrun, Hq. reflexivity. }
  clearbody w1. subst w1.
  pose proof (@batch_item_create renv e title rw [] eq_refl eq_refl Hrfresh Hrqfresh)
    as Hitem.
  pose proof (@createTask_ok renv (q_data e) title rw eq_refl Hrfresh Hrqfresh)
    as Hremote.
  rewrite Hremote in Hitem. cbn [fst app] in Hitem.
  match type of Hitem with
  | _ = ((?rw1, (?p :: nil)%list), _) =>
      assert (Htr : remote_transport renv rw
                      (mkRequest [e] (clock env (S (S (clock_n w)))))
                    = (rw1, inr (mkResponse [p])))
  end.
  { unfold remote_transport, batch_handler. cbn [items batch_loop].
    rewrite Hitem. reflexivity. }
  unfold s.
  erewrite sync_single_entry;
    [|exact Hpos|reflexivity|exact Htr|reflexivity|reflexivity].
  cbn [local results remote sync_queue tasks clock_n resolved_data q_task_id e].
  split; [reflexivity|]. split; [reflexivity|]. split; [|reflexivity].
  unfold db_SELECT_task_by_id. cbn [tasks].
  rewrite find_update_where_id by reflexivity.
  rewrite find_app_last.
  - reflexivity.
  - apply existsb_false_find, Hfresh.
  - simpl. apply String.eqb_refl.
Qed.

Lemma synced_create_gets_no_server_id_witness :
  let w1 := fst (createTask Scenario.client_env (Scenario.title_only "A")
                            Scenario.empty_world) in
  let s := sync (remote_transport Scenario.server_env) Scenario.client_env 50 w1
                Scenario.empty_world in
  sync_queue (local s) = []
  /\ results s = mkResult true 1 0 []
  /\ db_SELECT_task_by_id "c1" (local s)
     = Some (mkRawTask "c1" "A" EmptyString 0 1000 5000 0 synced None (Some 1003))
  /\ tasks (remote s)
     = [mkRawTask "s1" "A" EmptyString 0 5000 5000 0 pending None None].
Proof.
  apply (@synced_create_gets_no_server_id Scenario.client_env Scenario.server_env
           50%nat (Scenario.title_only "A") "A" Scenario.empty_world
           Scenario.empty_world);
    try reflexivity.
  lia.
Defined.

(* ================================================================== *)
(** ** The task routes, composed                                       *)
(* ================================================================== *)

(** X20. What POST /tasks answered with 201 can be fetched: GET /tasks/:id
    for the id in the answer returns 200 with the same record, and GET /tasks
    returns 200 with a list that holds it. *)
Theorem posted_task_can_be_fetched (env : Env) (reqBody : TaskPatch)
  (w w' : World) (t : Task) :
  existsb (fun r => r_id r =? uuid env (uuid_n w))%string (tasks w) = false ->
  existsb (fun e => q_id e =? uuid env (S (uuid_n w)))%string (sync_queue w) = false ->
  route_post_task env reqBody w = (w', Ok (mkResponseOf 201 (JsonTask (Some t)))) ->
  route_get_task (t_id t) w' = (w', Ok (mkResponseOf 200 (JsonTask (Some t))))
  /\ exists ts, route_get_tasks w' = (w', Ok (mkResponseOf 200 (JsonTasks ts)))
                /\ In t ts.
Proof.
  intros Hfresh Hqfresh Hpost.
  unfold route_post_task, try_catch, bind, respond, ret in Hpost.
  destruct (p_title reqBody) as [title|] eqn:Htitle; [|discriminate].
  destruct (falsy_string (Some title)); [discriminate|].
  rewrite (@createTask_ok env
             (mkPatch None (Some title) (p_description reqBody)
                      None None None None None None None)
             title w eq_refl Hfresh Hqfresh) in Hpost.
  injection Hpost as <- <-.
  assert (Hnone : forall x, In x (tasks w) ->
                    (r_id x =? uuid env (uuid_n w))%string = false).
  { intros x Hx. destruct (r_id x =? uuid env (uuid_n w))%string eqn:E; auto.
    rewrite <- Hfresh. symmetry. apply existsb_exists. exists x. auto. }
  split.
  - unfold route_get_task, try_catch, bind, respond, ret, getTask, gets,
      db_SELECT_active_task.
    cbn [tasks t_id p_description]. rewrite find_app_last.
    + reflexivity.
    + apply find_none_of. intros x Hx. rewrite (Hnone x Hx). reflexivity.
    + simpl. rewrite String.eqb_refl. reflexivity.
  - unfold route_get_tasks, try_catch, bind, respond, ret, getAllTasks, gets.
    cbn [tasks p_description]. eexists. split; [reflexivity|].
    rewrite filter_app, map_app. apply in_or_app. right. simpl. left. reflexivity.
Qed.

Lemma posted_task_can_be_fetched_witness :
  let t := mkTask "c1" "A" EmptyString false 1000 1000 false pending None None in
  route_get_task "c1" Scenario.after_create
  = (Scenario.after_create, Ok (mkResponseOf 200 (JsonTask (Some t))))
  /\ exists ts, route_get_tasks Scenario.after_create
                = (Scenario.after_create, Ok (mkResponseOf 200 (JsonTasks ts)))
                /\ In t ts.
Proof.
  intros t.
  apply (@posted_task_can_be_fetched Scenario.client_env (Scenario.title_only "A")
           Scenario.empty_world Scenario.after_create t);
    reflexivity.
Defined.

(** Reading back the record that was just updated, when the SET clause
    names no id or the id the row already has. *)
Lemma find_active_update_same_id (id : string) (f : RawTask -> RawTask)
  (ts : list RawTask) (r : RawTask) :
  NoDup (map r_id ts) ->
  (forall x, r_id x = id -> r_id (f x) = id) ->
  find (fun x => r_id x =? id)%string ts = Some r ->
  find (fun x => (r_id x =? id)%string && (r_is_deleted x =? 0))
       (update_where_id id f ts)
  = if r_is_deleted (f r) =? 0 then Some (f r) else None.
Proof.
  intros Hnd Hf. induction ts as [|a ts IH]; simpl; intros Hfind; [discriminate|].
  inversion Hnd as [|? ? Hnotin Hnd']; subst.
  destruct (r_id a =? id)%string eqn:E.
  - injection Hfind as <-. simpl.
    rewrite (Hf a (proj1 (String.eqb_eq _ _) E)), String.eqb_refl. simpl.
    destruct (r_is_deleted (f a) =? 0); [reflexivity|].
    apply find_active_none. intros x Hx Heq. apply Hnotin.
    apply String.eqb_eq in E. rewrite E, <- Heq. apply in_map, Hx.
  - simpl. rewrite E. simpl. apply IH; assumption.
Qed.

Lemma apply_set_same_id (id : string) (p : TaskPatch) (x : RawTask) :
  p_id p = None \/ p_id p = Some id ->
  r_id x = id -> r_id (apply_set p x) = id.
Proof. intros [Hp|Hp] Hx; simpl; rewrite Hp; simpl; [exact Hx|reflexivity]. Qed.

(** [updateTask] of a record that exists, with fields that name no id or
    the record's own. *)
Lemma updateTask_same_id (env : Env) (id : string) (updates : TaskPatch)
  (w : World) (r : RawTask) :
  NoDup (map r_id (tasks w)) ->
  db_SELECT_task_by_id id w = Some r ->
  p_id updates = None \/ p_id updates = Some id ->
  existsb (fun e => q_id e =? uuid env (uuid_n w))%string (sync_queue w) = false ->
  let merged := apply_set (stamp updates (clock env (clock_n w))) r in
  updateTask env id updates w
  = (mkWorld (update_where_id id (apply_set (stamp updates (clock env (clock_n w))))
                              (tasks w))
             (sync_queue w
              ++ [mkItem (uuid env (uuid_n w)) id OpUpdate updates
                         (clock env (S (clock_n w))) 0 None])%list
             (S (S (clock_n w))) (S (uuid_n w)),
     Ok (if r_is_deleted merged =? 0 then mapRowToTask (Some merged) else None)).
Proof.
  intros Hnd Hfind Hpid Hfresh. cbv zeta.
  assert (Hf : forall x, r_id x = id ->
                 r_id (apply_set (stamp updates (clock env (clock_n w))) x) = id)
    by (intros x; apply apply_set_same_id; exact Hpid).
  pose proof (@find_active_update_same_id id _ (tasks w) r Hnd Hf Hfind) as Hread.
  unfold db_SELECT_active_task in *.
  assert (Hclash : db_UPDATE_task id (stamp updates (clock env (clock_n w)))
                     (mkWorld (tasks w) (sync_queue w) (S (clock_n w)) (uuid_n w))
                   = (mkWorld (update_where_id id
                                 (apply_set (stamp updates (clock env (clock_n w))))
                                 (tasks w))
                              (sync_queue w) (S (clock_n w)) (uuid_n w), Ok tt)).
  { unfold db_UPDATE_task. cbn [stamp p_id tasks].
    destruct Hpid as [Hp|Hp]; rewrite Hp; [reflexivity|].
    rewrite String.eqb_refl. reflexivity. }
  unfold updateTask, getTaskById, getTask, addToSyncQueue, new_Date, uuidv4,
    db_INSERT_sync_queue, db_SELECT_active_task, bind, gets, ret.
  cbn [fst snd]. rewrite Hfind. cbn [mapRowToTask fst snd].
  rewrite Hclash. cbn [fst snd sync_queue q_id tasks clock_n uuid_n].
  rewrite Hfresh. cbn [fst snd with_queue sync_queue tasks clock_n uuid_n].
  rewrite Hread.
  destruct (r_is_deleted (apply_set (stamp updates (clock env (clock_n w))) r) =? 0);
    reflexivity.
Qed.

(** After [UPDATE tasks SET id = id', ... WHERE id = id] no row has the old
    id, and the row is found under the new one. *)
Lemma renamed_rows (id id' : string) (f : RawTask -> RawTask) (ts : list RawTask)
  (x : RawTask) :
  (forall y, r_id (f y) = id') -> id' <> id ->
  In x (update_where_id id f ts) -> (r_id x =? id)%string = false.
Proof.
  intros Hf Hne Hx.
  unfold update_where_id in Hx. apply in_map_iff in Hx. destruct Hx as (y & <- & _).
  destruct (r_id y =? id)%string eqn:E.
  - rewrite Hf. apply String.eqb_neq, Hne.
  - exact E.
Qed.

Lemma find_renamed_new (id id' : string) (f : RawTask -> RawTask) (ts : list RawTask)
  (r : RawTask) :
  (forall x, r_id (f x) = id') ->
  existsb (fun x => r_id x =? id')%string ts = false ->
  find (fun x => r_id x =? id)%string ts = Some r ->
  find (fun x => r_id x =? id')%string (update_where_id id f ts) = Some (f r).
Proof.
  intros Hf. induction ts as [|a ts IH]; simpl; intros Hex Hfind; [discriminate|].
  apply orb_false_elim in Hex. destruct Hex as [Ha Hex].
  destruct (r_id a =? id)%string eqn:E.
  - injection Hfind as <-. rewrite Hf, String.eqb_refl. reflexivity.
  - rewrite Ha. apply IH; assumption.
Qed.

(** [updateTask] with fields that name another id, which is not taken. *)
Lemma updateTask_other_id (env : Env) (id id' : string) (updates : TaskPatch)
  (w : World) (r : RawTask) :
  db_SELECT_task_by_id id w = Some r ->
  p_id updates = Some id' -> id' <> id ->
  existsb (fun x => r_id x =? id')%string (tasks w) = false ->
  existsb (fun e => q_id e =? uuid env (uuid_n w))%string (sync_queue w) = false ->
  updateTask env id updates w
  = (mkWorld (update_where_id id (apply_set (stamp updates (clock env (clock_n w))))
                              (tasks w))
             (sync_queue w
              ++ [mkItem (uuid env (uuid_n w)) id OpUpdate updates
                         (clock env (S (clock_n w))) 0 None])%list
             (S (S (clock_n w))) (S (uuid_n w)),
     Ok None).
Proof.
  intros Hfind Hpid Hne Hfree Hfresh.
  assert (Hf : forall x, r_id (apply_set (stamp updates (clock env (clock_n w))) x)
                         = id')
    by (intros x; simpl; rewrite Hpid; reflexivity).
  assert (Hread : find (fun x => (r_id x =? id)%string && (r_is_deleted x =? 0))
                        (update_where_id id
                           (apply_set (stamp updates (clock env (clock_n w))))
                           (tasks w))
                   = None).
  { apply find_none_of. intros x Hx.
    rewrite (@renamed_rows id id' _ (tasks w) x Hf Hne Hx). reflexivity. }
  assert (Hclash : db_UPDATE_task id (stamp updates (clock env (clock_n w)))
                     (mkWorld (tasks w) (sync_queue w) (S (clock_n w)) (uuid_n w))
                   = (mkWorld (update_where_id id
                                 (apply_set (stamp updates (clock env (clock_n w))))
                                 (tasks w))
                              (sync_queue w) (S (clock_n w)) (uuid_n w), Ok tt)).
  { unfold db_UPDATE_task. cbn [stamp p_id tasks]. rewrite Hpid, Hfree.
    rewrite andb_false_r. reflexivity. }
  unfold updateTask, getTaskById, getTask, addToSyncQueue, new_Date, uuidv4,
    db_INSERT_sync_queue, db_SELECT_active_task, bind, gets, ret.
  cbn [fst snd]. rewrite Hfind. cbn [mapRowToTask fst snd].
  rewrite Hclash. cbn [fst snd sync_queue q_id tasks clock_n uuid_n].
  rewrite Hfresh. cbn [fst snd with_queue sync_queue tasks clock_n uuid_n].
  rewrite Hread. reflexivity.
Qed.

(** X21. PUT /tasks/:id, given that the id drawn for the Outbox entry is not
    taken.  For an id that is not in the store it answers 404 and writes
    nothing.  For a record that exists, with a body that names no id or the
    record's own and leaves the record not soft-deleted after the merge, it
    answers 200 with the updated record, whose [updated_at] is the clock
    reading and whose [sync_status] is pending, and GET /tasks/:id then
    returns that record.  For a record that exists, with a body that names
    another id that is not taken, the row is rewritten under the id of the
    body, an update entry for the id of the URL is queued, and the answer is
    404: no record has the id of the URL any more. *)
Theorem route_put_task_answers (env : Env) (id : string) (reqBody : TaskPatch)
  (w : World) :
  (db_SELECT_task_by_id id w = None ->
   route_put_task env id reqBody w
   = (w, Ok (mkResponseOf 404 (JsonError "Task not found"))))
  /\ (forall r,
        NoDup (map r_id (tasks w)) ->
        db_SELECT_task_by_id id w = Some r ->
        p_id reqBody = None \/ p_id reqBody = Some id ->
        existsb (fun e => q_id e =? uuid env (uuid_n w))%string (sync_queue w) = false ->
        opt_or (option_map bool_to_int (p_is_deleted reqBody)) (r_is_deleted r) = 0 ->
        exists w' t,
          route_put_task env id reqBody w
          = (w', Ok (mkResponseOf 200 (JsonTask (Some t))))
          /\ t_updated_at t = clock env (clock_n w)
          /\ t_sync_status t = pending
          /\ route_get_task id w'
             = (w', Ok (mkResponseOf 200 (JsonTask (Some t)))))
  /\ (forall r id',
        db_SELECT_task_by_id id w = Some r ->
        p_id reqBody = Some id' -> id' <> id ->
        existsb (fun x => r_id x =? id')%string (tasks w) = false ->
        existsb (fun e => q_id e =? uuid env (uuid_n w))%string (sync_queue w) = false ->
        exists w',
          route_put_task env id reqBody w
          = (w', Ok (mkResponseOf 404 (JsonError "Task not found")))
          /\ db_SELECT_task_by_id id w' = None
          /\ db_SELECT_task_by_id id' w'
             = Some (apply_set (stamp reqBody (clock env (clock_n w))) r)
          /\ sync_queue w'
             = (sync_queue w
                ++ [mkItem (uuid env (uuid_n w)) id OpUpdate reqBody
                           (clock env (S (clock_n w))) 0 None])%list).
Proof.
  split; [|split].
  - intros Hnone. unfold route_put_task, try_catch, bind, respond, ret.
    rewrite (@updateTask_not_found env id reqBody w Hnone). reflexivity.
  - intros r Hnd Hfind Hpid Hfresh Hlive.
    pose proof (@updateTask_same_id env id reqBody w r Hnd Hfind Hpid Hfresh) as Hrun.
    cbv zeta in Hrun.
    assert (Hd : r_is_deleted (apply_set (stamp reqBody (clock env (clock_n w))) r) = 0)
      by exact Hlive.
    rewrite Hd in Hrun. change (0 =? 0) with true in Hrun. cbv iota in Hrun.
    eexists. eexists. split; [|split; [|split]].
    + unfold route_put_task, try_catch, bind, respond, ret.
      rewrite Hrun. reflexivity.
    + reflexivity.
    + reflexivity.
    + unfold route_get_task, try_catch, bind, respond, ret, getTask, gets,
        db_SELECT_active_task.
      cbn [tasks].
      assert (Hf : forall x, r_id x = id ->
                     r_id (apply_set (stamp reqBody (clock env (clock_n w))) x) = id)
        by (intros x; apply apply_set_same_id; exact Hpid).
      rewrite (@find_active_update_same_id id _ (tasks w) r Hnd Hf Hfind).
      replace (r_is_deleted (apply_set (stamp reqBody (clock env (clock_n w))) r) =? 0)
        with true by (rewrite Hd; reflexivity).
      reflexivity.
  - intros r id' Hfind Hpid Hne Hfree Hfresh.
    pose proof (@updateTask_other_id env id id' reqBody w r Hfind Hpid Hne Hfree Hfresh)
      as Hrun.
    assert (Hf : forall x, r_id (apply_set (stamp reqBody (clock env (clock_n w))) x)
                           = id')
      by (intros x; simpl; rewrite Hpid; reflexivity).
    eexists. split; [|split; [|split]].
    + unfold route_put_task, try_catch, bind, respond, ret.
      rewrite Hrun. reflexivity.
    + unfold db_SELECT_task_by_id. cbn [tasks].
      apply find_none_of. intros x Hx.
      exact (@renamed_rows id id' _ (tasks w) x Hf Hne Hx).
    + unfold db_SELECT_task_by_id. cbn [tasks].
      apply find_renamed_new; assumption.
    + reflexivity.
Qed.

Lemma route_put_task_answers_witness :
  route_put_task Scenario.client_env "t9" (Scenario.title_only "B") Scenario.world_live
  = (Scenario.world_live, Ok (mkResponseOf 404 (JsonError "Task not found")))
  /\ (exists w' t,
        route_put_task Scenario.client_env "t1" Fixture.body_with_own_id
                       Scenario.world_live
        = (w', Ok (mkResponseOf 200 (JsonTask (Some t))))
        /\ t_updated_at t = 1000
        /\ t_sync_status t = pending
        /\ route_get_task "t1" w' = (w', Ok (mkResponseOf 200 (JsonTask (Some t)))))
  /\ (exists w',
        route_put_task Scenario.client_env "t1" Fixture.body_with_other_id
                       Scenario.world_live
        = (w', Ok (mkResponseOf 404 (JsonError "Task not found")))
        /\ db_SELECT_task_by_id "t1" w' = None
        /\ db_SELECT_task_by_id "t5" w'
           = Some (mkRawTask "t5" "B" EmptyString 0 900 1000 0 pending None None)
        /\ sync_queue w'
           = [mkItem "c1" "t1" OpUpdate Fixture.body_with_other_id 1001 0 None]).
Proof.
  split; [|split].
  - apply (proj1 (route_put_task_answers Scenario.client_env "t9"
                    (Scenario.title_only "B") Scenario.world_live)).
    reflexivity.
  - apply (proj1 (proj2 (route_put_task_answers Scenario.client_env "t1"
                           Fixture.body_with_own_id Scenario.world_live))
             (Scenario.row_t1 0));
      try reflexivity.
    + no_dup_ids.
    + right. reflexivity.
  - apply (proj2 (proj2 (route_put_task_answers Scenario.client_env "t1"
                           Fixture.body_with_other_id Scenario.world_live))
             (Scenario.row_t1 0) "t5");
      try reflexivity.
    discriminate.
Defined.
